(** * The 9volt cluster engine: director election and member liveness

    A shallow embedding of package [cluster] (director monitor, director
    heartbeat, member heartbeat, member monitor, and the start-up
    sequence), together with the properties its design document states.

    Conventions of the embedding:
    - a Go [error] is [option error]; [None] is [nil];
    - [time.Duration] is an integer count of nanoseconds ([Z]);
    - [time.Time] is an instant, an integer count of nanoseconds;
    - [Duration.Seconds()] yields a float64 in Go; it is taken here as the
      exact rational, rounding is not modelled;
    - package [dal] (the etcd client), [encoding/json] and the system
      clock are interfaces of the development: every function of the
      cluster engine is defined for any implementation of them;
    - every call into [dal] (with the error it returned), every channel
      send, every event-queue entry, health write, sleep and spawned
      goroutine is appended to a chronological trace, so that "performs no
      write" and "publishes after the write" are statements about that
      trace;
    - [log.Debugf], [log.Infof] and [log.Warningf] only print and are left
      out; [log.Fatalf] ends the process and is an outcome of its own. *)

From Stdlib Require Import ZArith QArith Ascii String List Lia Bool DecimalString.
From stdpp Require Import base strings gmap pretty.

Open Scope string_scope.
Open Scope list_scope.
Open Scope Z_scope.

(** ** Go values used by the package *)

Module Go.

(** [time.Duration]: nanoseconds in an int64. *)
Definition Duration := Z.
Definition Second : Duration := 1000000000.
Definition minDuration : Duration := - 2 ^ 63.
Definition maxDuration : Duration := 2 ^ 63 - 1.

(** [time.Time] as an instant in nanoseconds. *)
Definition Time := Z.

(** [func (d Duration) Seconds() float64]:
    [sec := d / Second; nsec := d % Second;
     return float64(sec) + float64(nsec)/1e9].
    Go's [/] and [%] on integers truncate toward zero. *)
Definition Seconds (d : Duration) : Q :=
  let sec := Z.quot d Second in
  let nsec := Z.rem d Second in
  (inject_Z sec + inject_Z nsec / inject_Z 1000000000)%Q.

(** [int(f)] for a float [f]: the fraction is discarded (truncation
    toward zero). *)
Definition int_of_float (f : Q) : Z := Z.quot (Qnum f) (Z.pos (Qden f)).

(** [a > b] on floats. *)
Definition float_gt (a b : Q) : bool := negb (Qle_bool a b).

(** [func (t Time) Sub(u Time) Duration]: the difference, saturated to
    the range of [Duration]. *)
Definition Sub (t u : Time) : Duration :=
  let d := t - u in
  if d <? minDuration then minDuration
  else if maxDuration <? d then maxDuration
  else d.

(** [path.Base]: the last element of a slash-separated path. Trailing
    slashes are removed first; the empty path gives ["."], a path of
    slashes only gives ["/"]. *)
Definition slash : Ascii.ascii := "/"%char.

Fixpoint dropSlashes (l : list Ascii.ascii) : list Ascii.ascii :=
  match l with
  | c :: l' => if Ascii.eqb c slash then dropSlashes l' else l
  | [] => []
  end.

Fixpoint untilSlash (l : list Ascii.ascii) : list Ascii.ascii :=
  match l with
  | c :: l' => if Ascii.eqb c slash then [] else c :: untilSlash l'
  | [] => []
  end.

Definition Base (path : string) : string :=
  if String.eqb path "" then "."
  else
    (* strip trailing slashes, then keep what follows the last slash;
       both are done on the reversed path *)
    let stripped := dropSlashes (rev (list_ascii_of_string path)) in
    let last := rev (untilSlash stripped) in
    match last with
    | [] => "/"
    | _ => string_of_list_ascii last
    end.

End Go.

(** ** Records of the package *)

Record DirectorJSON := mkDirectorJSON {
  dMemberID : string;
  dLastUpdate : Go.Time
}.

Record MemberJSON := mkMemberJSON {
  mMemberID : string;
  mHostname : string;
  mListenAddress : string;
  mLastUpdated : Go.Time;
  mTags : list string;
  mVersion : string;
  mSemVer : string
}.

(** The fields of [config.Config] the engine reads. *)
Record Config := mkConfig {
  cfgMemberID : string;
  cfgListenAddress : string;
  cfgTags : list string;
  cfgVersion : string;
  cfgSemVer : string;
  HeartbeatInterval : Go.Duration;
  HeartbeatTimeout : Go.Duration
}.

(** [dal.SetOptions], with the fields the engine sets; a field left out
    of a Go literal has its zero value. *)
Record SetOptions := mkSetOptions {
  soDir : bool;
  soTTLSec : Z;
  soPrevExist : string;
  soCreateParents : bool;
  soDepth : Z
}.

(** The part of an etcd watch response the engine reads:
    [resp.Action], [resp.Node.Key], [resp.Node.Dir]. *)
Record Response := mkResponse {
  Action : string;
  NodeKey : string;
  NodeDir : bool
}.

Inductive ErrorType := ETCD_WATCHER_ERROR | ETCD_GENERIC_ERROR.

(** change state actions and etcd actions: one [const] block in the
    source, so [iota] keeps counting across both groups. *)
Definition START : Z := 0.
Definition STOP : Z := 1.
Definition CREATE : Z := 2.
Definition UPDATE : Z := 3.
Definition NOOP : Z := 4.

Definition DIRECTOR_KEY : string := "cluster/director".
Definition Identifier : string := "cluster".

(** ** Interfaces and events *)

Section Interfaces.

(** Errors raised outside the package (etcd, json). *)
Variable E : Type.

(** A Go [error] value seen by the package: one passed through from a
    library, or one built with [fmt.Errorf]. *)
Inductive error :=
| Foreign (e : E)
| Errorf (msg : string).

Record OverwatchMessage := mkMessage {
  owError : error;
  owSource : string;
  owErrorType : ErrorType
}.

(** Calls into [dal.IDal], with their arguments. *)
Inductive DalCall :=
| CallGet (key : string)
| CallUpdateDirectorState (data prevValue : string) (force : bool)
| CallCreateDirectorState (data : string)
| CallKeyExists (key : string)
| CallDelete (key : string) (recursive : bool)
| CallSet (key value : string) (opts : option SetOptions)
| CallRefresh (key : string) (ttl : Z)
| CallNewWatcher (key : string) (recursive : bool)
| CallWatcherNext.

(** Goroutines started with [go] inside a loop body. *)
Inductive Goroutine :=
| GoRefresh (memberDir : string) (ttl : Z).

Inductive Event :=
| EvDal (c : DalCall) (err : option E)
| EvStateChan (b : bool)
| EvDistributeChan (b : bool)
| EvOverwatchChan (m : OverwatchMessage)
| EvEventQueue (level msg : string)
| EvHealth (ok : bool) (msg : string)
| EvSleep (d : Go.Duration)
| EvGo (g : Goroutine).

(** The coordination store behind [dal], as the engine uses it. [St] is
    the state of the store; every operation may change it. *)
Variable St : Type.

Record IDal := mkIDal {
  IsKeyNotFound : option E -> bool;
  Get : string -> St -> (gmap string string * option E) * St;
  UpdateDirectorState : string -> string -> bool -> St -> option E * St;
  CreateDirectorState : string -> St -> option E * St;
  KeyExists : string -> St -> (bool * bool * option E) * St;
  Delete : string -> bool -> St -> option E * St;
  Set_ : string -> string -> option SetOptions -> St -> option E * St;
  Refresh : string -> Z -> St -> option E * St;
  WatcherNext : St -> (Response * option E) * St
}.

(** [encoding/json] on the two records, and [Duration.String]. *)
Record Codec := mkCodec {
  Marshal_Director : option DirectorJSON -> string * option E;
  Unmarshal_Director : string -> DirectorJSON * option E;
  Marshal_Member : MemberJSON -> string * option E;
  Duration_String : Go.Duration -> string
}.

(** The mutable part of a [Cluster] and of its environment: the role
    flag, the store, the number of clock readings taken, and the trace. *)
Record World := mkWorld {
  DirectorState : bool;
  store : St;
  reads : nat;
  trace : list Event
}.

End Interfaces.

Arguments Foreign {E} e.
Arguments Errorf {E} msg.
Arguments mkMessage {E} _ _ _.
Arguments owError {E} _.
Arguments owSource {E} _.
Arguments owErrorType {E} _.
Arguments EvDal {E} c err.
Arguments EvStateChan {E} b.
Arguments EvDistributeChan {E} b.
Arguments EvOverwatchChan {E} m.
Arguments EvEventQueue {E} level msg.
Arguments EvHealth {E} ok msg.
Arguments EvSleep {E} d.
Arguments EvGo {E} g.
Arguments mkIDal {E St} _ _ _ _ _ _ _ _ _.
Arguments IsKeyNotFound {E St} _ _.
Arguments Get {E St} _ _ _.
Arguments UpdateDirectorState {E St} _ _ _ _ _.
Arguments CreateDirectorState {E St} _ _ _.
Arguments KeyExists {E St} _ _ _.
Arguments Delete {E St} _ _ _ _.
Arguments Set_ {E St} _ _ _ _ _.
Arguments Refresh {E St} _ _ _ _.
Arguments WatcherNext {E St} _ _.
Arguments mkCodec {E} _ _ _ _.
Arguments Marshal_Director {E} _ _.
Arguments Unmarshal_Director {E} _ _.
Arguments Marshal_Member {E} _ _.
Arguments Duration_String {E} _ _.
Arguments mkWorld {E St} _ _ _ _.
Arguments DirectorState {E St} _.
Arguments store {E St} _.
Arguments reads {E St} _.
Arguments trace {E St} _.

(** ** An in-memory coordination store

    Modelled from the spec: package [dal] is not among the sources. This
    is a small store with the capabilities section 3 of the design asks of
    the coordination store (get, set, delete, TTLs, compare-and-swap on
    the director key, a queue of watch events, a distinguishable "key not
    found"), and a line-oriented codec in the place of [encoding/json].
    They are used to run the engine on concrete inputs; the properties of
    the engine are proved for every store and every codec. *)

Module Mem.

Inductive Err :=
| KeyNotFound
| NodeExist
| TestFailed
| Unavailable
| ContextCanceled
| BadBlob
| YearOutOfRange.

Definition text (e : Err) : string :=
  match e with
  | KeyNotFound => "100: Key not found"
  | NodeExist => "105: Key already exists"
  | TestFailed => "101: Compare failed"
  | Unavailable => "client: etcd cluster is unavailable or misconfigured"
  | ContextCanceled => "context canceled"
  | BadBlob => "invalid character"
  | YearOutOfRange => "Time.MarshalJSON: year outside of range [0,9999]"
  end.

Record Node := mkNode {
  value : string;
  dir : bool;
  ttl : Z
}.

Record Store := mkStore {
  nodes : gmap string Node;
  events : list (Response * option Err);
  down : bool
}.

Definition withNodes (s : Store) (n : gmap string Node) : Store :=
  mkStore n (events s) (down s).

Definition isKeyNotFound (err : option Err) : bool :=
  match err with
  | Some KeyNotFound => true
  | _ => false
  end.

(** The leaves directly below directory [key], by their base names. *)
Definition children (key : string) (n : gmap string Node) : gmap string string :=
  list_to_map
    (omap (fun kv : string * Node =>
             if String.prefix (key +:+ "/") kv.1 && negb (dir kv.2)
             then Some (Go.Base kv.1, value kv.2) else None)
          (map_to_list n)).

Definition get (key : string) (s : Store)
  : (gmap string string * option Err) * Store :=
  if down s then ((∅, Some Unavailable), s)
  else
    match nodes s !! key with
    | None => ((∅, Some KeyNotFound), s)
    | Some n =>
        if dir n then ((children key (nodes s), None), s)
        else (({[ key := value n ]}, None), s)
    end.

Definition createDirectorState (data : string) (s : Store) : option Err * Store :=
  if down s then (Some Unavailable, s)
  else
    match nodes s !! DIRECTOR_KEY with
    | Some _ => (Some NodeExist, s)
    | None => (None, withNodes s (<[DIRECTOR_KEY := mkNode data false 0]> (nodes s)))
    end.

Definition updateDirectorState (data prevValue : string) (force : bool) (s : Store)
  : option Err * Store :=
  if down s then (Some Unavailable, s)
  else if force then
    (None, withNodes s (<[DIRECTOR_KEY := mkNode data false 0]> (nodes s)))
  else
    match nodes s !! DIRECTOR_KEY with
    | None => (Some KeyNotFound, s)
    | Some n =>
        if String.eqb (value n) prevValue then
          (None, withNodes s (<[DIRECTOR_KEY := mkNode data false 0]> (nodes s)))
        else (Some TestFailed, s)
    end.

Definition keyExists (key : string) (s : Store) : (bool * bool * option Err) * Store :=
  if down s then ((false, false, Some Unavailable), s)
  else
    match nodes s !! key with
    | None => ((false, false, None), s)
    | Some n => ((true, dir n, None), s)
    end.

Definition delete_ (key : string) (recursive : bool) (s : Store) : option Err * Store :=
  if down s then (Some Unavailable, s)
  else
    match nodes s !! key with
    | None => (Some KeyNotFound, s)
    | Some _ =>
        let keep (kv : string * Node) : Prop :=
          kv.1 ≠ key ∧ (recursive = false ∨ String.prefix (key +:+ "/") kv.1 = false) in
        (None, withNodes s (filter keep (nodes s)))
    end.

Definition set (key val : string) (opts : option SetOptions) (s : Store)
  : option Err * Store :=
  if down s then (Some Unavailable, s)
  else
    let n := match opts with
             | Some o => mkNode val (soDir o) (soTTLSec o)
             | None => mkNode val false 0
             end in
    (None, withNodes s (<[key := n]> (nodes s))).

Definition refresh (key : string) (t : Z) (s : Store) : option Err * Store :=
  if down s then (Some Unavailable, s)
  else
    match nodes s !! key with
    | None => (Some KeyNotFound, s)
    | Some n => (None, withNodes s (<[key := mkNode (value n) (dir n) t]> (nodes s)))
    end.

Definition watcherNext (s : Store) : (Response * option Err) * Store :=
  match events s with
  | [] => ((mkResponse "" "" false, Some ContextCanceled), s)
  | ev :: rest => (ev, mkStore (nodes s) rest (down s))
  end.

Definition dal : IDal Err Store :=
  mkIDal isKeyNotFound get updateDirectorState createDirectorState
         keyExists delete_ set refresh watcherNext.

(** The codec: a director record is written as its timestamp, a
    semicolon, and the member id; a record with a negative timestamp is
    refused. *)
Fixpoint splitSemi (s : string) : option (string * string) :=
  match s with
  | EmptyString => None
  | String c s' =>
      if Ascii.eqb c ";"%char then Some (EmptyString, s')
      else match splitSemi s' with
           | Some (l, r) => Some (String c l, r)
           | None => None
           end
  end.

Definition marshalDirector (d : option DirectorJSON) : string * option Err :=
  match d with
  | None => ("null", None)
  | Some d =>
      if dLastUpdate d <? 0 then ("", Some YearOutOfRange)
      else (pretty (dLastUpdate d) +:+ ";" +:+ dMemberID d, None)
  end.

Definition unmarshalDirector (blob : string) : DirectorJSON * option Err :=
  match splitSemi blob with
  | Some (l, r) =>
      match NilZero.int_of_string l with
      | Some t => (mkDirectorJSON r (Z.of_int t), None)
      | None => (mkDirectorJSON "" 0, Some BadBlob)
      end
  | None => (mkDirectorJSON "" 0, Some BadBlob)
  end.

Definition marshalMember (m : MemberJSON) : string * option Err :=
  (pretty (mLastUpdated m) +:+ ";" +:+ mMemberID m +:+ ";" +:+ mHostname m
   +:+ ";" +:+ mListenAddress m +:+ ";" +:+ mVersion m +:+ ";" +:+ mSemVer m,
   None).

Definition codec : Codec Err :=
  mkCodec marshalDirector unmarshalDirector marshalMember
          (fun d => pretty d +:+ "ns").

(** A clock that starts at 1000 s and advances by one second a reading. *)
Definition clock (n : nat) : Go.Time := (1000 + Z.of_nat n) * Go.Second.

Definition config (self : string) : Config :=
  mkConfig self "0.0.0.0:8080" [] "N/A" "N/A" (1 * Go.Second) (5 * Go.Second).

Definition emptyStore : Store := mkStore ∅ [] false.

(** A store whose director key holds [blob]. *)
Definition directorStore (blob : string) : Store :=
  mkStore {[ DIRECTOR_KEY := mkNode blob false 5 ]} [] false.

(** A store in which the director key is an (empty) directory. *)
Definition directorDirStore : Store :=
  mkStore {[ DIRECTOR_KEY := mkNode "" true 0 ]} [] false.

(** A store that still has the member directory of an earlier run of A. *)
Definition staleStore : Store :=
  mkStore (<["cluster/members/A" := mkNode "" true 5]>
            {[ "cluster/members/A/status" := mkNode "old" false 0 ]}) [] false.

(** A store with watch events waiting. *)
Definition watchStore (evs : list (Response * option Err)) : Store :=
  mkStore ∅ evs false.

(** A store that cannot be reached. *)
Definition downStore : Store := mkStore ∅ [] true.

Definition world (ds : bool) (s : Store) : World Err Store := mkWorld ds s 0 [].

Definition cfgA : Config := config "A".

(** The same configuration with a timeout of minus one and a half
    seconds. *)
Definition cfgNegative : Config :=
  mkConfig "A" "0.0.0.0:8080" [] "N/A" "N/A" (1 * Go.Second) (-1500000000).

End Mem.

(** ** The engine *)

Section Engine.

Variable E : Type.

(** [err.Error()] of a library's error. *)
Variable Error_text : E -> string.

Definition Error (err : error E) : string :=
  match err with
  | Foreign e => Error_text e
  | Errorf msg => msg
  end.

Variable St : Type.

Local Abbreviation error := (error E).
Local Abbreviation Event := (Event E).
Local Abbreviation World := (World E St).
Local Abbreviation IDal := (IDal E St).
Local Abbreviation Codec := (Codec E).
Local Abbreviation OverwatchMessage := (OverwatchMessage E).

Variable dal : IDal.
Variable json : Codec.

(** [time.Now()]: the [n]-th reading of the wall clock. *)
Variable clock : nat -> Go.Time.

(** [os.Hostname()], read once in [New]. *)
Variable Hostname : string.

Variable cfg : Config.

Definition MemberID : string := cfgMemberID cfg.

(** A computation ends with a value or panics. *)
Inductive Res (A : Type) :=
| Ret (a : A)
| Panic (msg : string).
Arguments Ret {A} a.
Arguments Panic {A} msg.

Definition M (A : Type) := World -> Res A * World.

Definition ret {A} (a : A) : M A := fun w => (Ret a, w).

Definition bind {A B} (m : M A) (k : A -> M B) : M B :=
  fun w =>
    match m w with
    | (Ret a, w') => k a w'
    | (Panic msg, w') => (Panic msg, w')
    end.

Definition panic {A} (msg : string) : M A := fun w => (Panic msg, w).

Notation "x <- m ;; k" := (bind m (fun x => k))
  (at level 100, m at next level, right associativity).
Notation "m ;;; k" := (bind m (fun _ => k))
  (at level 100, right associativity).

Definition emit (e : Event) : M unit :=
  fun w => (Ret tt, mkWorld (DirectorState w) (store w) (reads w) (trace w ++ [e])).

(** Run one [dal] operation: let the store answer, and record the call
    with the error of the answer ([errOf] picks it out). *)
Definition call {A} (c : DalCall) (errOf : A -> option E) (op : St -> A * St) : M A :=
  fun w =>
    let '(a, s') := op (store w) in
    (Ret a, mkWorld (DirectorState w) s' (reads w) (trace w ++ [EvDal c (errOf a)])).

Definition Now : M Go.Time :=
  fun w => (Ret (clock (reads w)),
            mkWorld (DirectorState w) (store w) (S (reads w)) (trace w)).

Definition eqAddWithErrorLog (level msg : string) : M unit :=
  emit (EvEventQueue level msg).

(** ** Role flag *)

Definition amDirector : M bool :=
  fun w => (Ret (DirectorState w), w).

Definition setDirectorState (newState : bool) : M unit :=
  fun w =>
    (Ret tt, mkWorld newState (store w) (reads w) (trace w ++ [EvStateChan newState])).

(** ** Director state *)

Definition isExpired (lastUpdated : Go.Time) : M bool :=
  now <- Now ;;
  let delta := Go.Sub now lastUpdated in
  if Go.float_gt (Go.Seconds delta) (Go.Seconds (HeartbeatTimeout cfg))
  then ret true
  else ret false.

Definition getState : M (option DirectorJSON * option error) :=
  r <- call (CallGet DIRECTOR_KEY) snd (Get dal DIRECTOR_KEY) ;;
  let '(data, err) := r in
  if IsKeyNotFound dal err then ret (None, None)
  else
    match err with
    | Some e => ret (None, Some (Foreign e))
    | None =>
        match data !! DIRECTOR_KEY with
        | None =>
            ret (None, Some (Errorf "Uhh, no 'director' entry in map? Seems like a bug"))
        | Some blob =>
            match Unmarshal_Director json blob with
            | (_, Some e) =>
                ret (None, Some (Errorf ("Unable to unmarshal director JSON blob: "
                                         +:+ Error_text e)))
            | (directorJSON, None) => ret (Some directorJSON, None)
            end
        end
    end.

Definition updateState (prevDirectorJSON : option DirectorJSON) (etcdAction : Z)
  : M (option error) :=
  if negb (etcdAction =? CREATE) && negb (etcdAction =? UPDATE)
  then ret (Some (Errorf ("Unrecognized etcdAction '" +:+ pretty etcdAction
                          +:+ "' (bug?)")))
  else
    now <- Now ;;
    let newDirectorJSON := mkDirectorJSON MemberID now in
    match Marshal_Director json (Some newDirectorJSON) with
    | (_, Some e) =>
        ret (Some (Errorf ("Unable to marshal new director state blob: "
                           +:+ Error_text e)))
    | (data, None) =>
        r <- (if etcdAction =? UPDATE then
                match Marshal_Director json prevDirectorJSON with
                | (_, Some _) =>
                    (* the message is built from [err], which is nil here *)
                    panic "invalid memory address or nil pointer dereference"
                | (prevData, None) =>
                    stateErr <- call (CallUpdateDirectorState data prevData false) id
                                     (UpdateDirectorState dal data prevData false) ;;
                    ret (stateErr, "update")
                end
              else
                stateErr <- call (CallCreateDirectorState data) id
                                 (CreateDirectorState dal data) ;;
                ret (stateErr, "create")) ;;
        let '(stateErr, actionVerb) := r in
        match stateErr with
        | Some e =>
            ret (Some (Errorf ("Unable to " +:+ actionVerb
                               +:+ " director state in dal: " +:+ Error_text e)))
        | None => ret None
        end
    end.

Definition changeState (action : Z) (prevDirectorJSON : option DirectorJSON)
           (etcdAction : Z) : M (option error) :=
  if action =? START then
    r <- (if negb (etcdAction =? NOOP) then
            updateState prevDirectorJSON etcdAction
          else ret None) ;;
    match r with
    | Some err =>
        ret (Some (Errorf ("Unable to update director state: " +:+ Error err)))
    | None =>
        setDirectorState true ;;;
        ret None
    end
  else
    setDirectorState false ;;;
    ret None.

Definition handleState (directorJSON : option DirectorJSON) : M (option error) :=
  match directorJSON with
  | None =>
      (* nil directorJSON == no existing director entry *)
      changeState START None CREATE
  | Some d =>
      let self := String.eqb (dMemberID d) MemberID in
      (* happy path *)
      let third :=
        if negb self then
          expired <- isExpired (dLastUpdate d) ;;
          if expired then changeState START (Some d) UPDATE
          else ret None
        else ret None in
      (* etcd says we are not director, but we think we are *)
      let second :=
        if negb self then
          am <- amDirector ;;
          if am then changeState STOP None NOOP else third
        else third in
      (* etcd says we are director, but we do not realize it *)
      if self then
        am <- amDirector ;;
        if negb am then changeState START (Some d) UPDATE else second
      else second
  end.

(** The body of the loop of [runDirectorMonitor]. *)
Definition directorMonitorTick : M (option error) :=
  r <- getState ;;
  let '(directorJSON, err) := r in
  match err with
  | Some e =>
      eqAddWithErrorLog "error"
        (Identifier +:+ "-directorMonitor: Unable to fetch director state: "
         +:+ Error e) ;;;
      ret None
  | None =>
      herr <- handleState directorJSON ;;
      match herr with
      | Some e =>
          eqAddWithErrorLog "error"
            (Identifier +:+ "-directorMonitor: Unable to handle state: "
             +:+ Error e) ;;;
          ret None
      | None => ret None
      end
  end.

(** ** Director heartbeat *)

Definition sendDirectorHeartbeat : M (option error) :=
  now <- Now ;;
  let newDirectorJSON := mkDirectorJSON MemberID now in
  match Marshal_Director json (Some newDirectorJSON) with
  | (_, Some e) =>
      ret (Some (Errorf ("Unable to marshal heartbeat blob: " +:+ Error_text e)))
  | (data, None) =>
      err <- call (CallUpdateDirectorState data "" true) id
                  (UpdateDirectorState dal data "" true) ;;
      match err with
      | Some e =>
          ret (Some (Errorf ("Unable to update director heartbeat: "
                             +:+ Error_text e)))
      | None => ret None
      end
  end.

(** The body of the loop of [runDirectorHeartbeat]. *)
Definition directorHeartbeatTick : M (option error) :=
  am <- amDirector ;;
  if negb am then ret None
  else
    err <- sendDirectorHeartbeat ;;
    match err with
    | Some e =>
        eqAddWithErrorLog "error"
          (Identifier +:+ "-directorHeartbeat: " +:+ Error e) ;;;
        ret None
    | None => ret None
    end.

(** ** Member monitor *)

Inductive LoopStep := Continue | Break.

Definition membersDir : string := "cluster/members/".

(** [watcher := c.DalClient.NewWatcher(membersDir, true)], before the
    loop of [runMemberMonitor]. *)
Definition newMemberWatcher : M unit :=
  emit (EvDal (CallNewWatcher membersDir true) None).

(** One iteration of the [for] loop of [runMemberMonitor]. *)
Definition memberMonitorStep : M LoopStep :=
  am <- amDirector ;;
  if negb am then
    emit (EvSleep (HeartbeatInterval cfg)) ;;;
    ret Continue
  else
    r <- call CallWatcherNext snd (WatcherNext dal) ;;
    let '(resp, err) := r in
    match err with
    | Some e =>
        if String.eqb (Error_text e) "context canceled" then ret Break
        else
          eqAddWithErrorLog "error"
            (Identifier +:+ "-runMemberMonitor: Unexpected watcher error: "
             +:+ Error_text e) ;;;
          emit (EvHealth false ("Cluster engine watcher encountering errors: "
                                +:+ Error_text e)) ;;;
          emit (EvOverwatchChan
                  (mkMessage (Errorf ("Unexpected watcher error: " +:+ Error_text e))
                             (Identifier +:+ ".runMemberMonitor")
                             ETCD_WATCHER_ERROR)) ;;;
          (* let overwatch determine if it should shut things down *)
          ret Continue
    | None =>
        if String.eqb (Action resp) "set" then
          (* only care about set's on base dir and 'config' *)
          if negb (NodeDir resp) || String.eqb (Go.Base (NodeKey resp)) "config"
          then ret Continue
          else
            emit (EvDistributeChan true) ;;;
            ret Continue
        else if String.eqb (Action resp) "expire" then
          emit (EvDistributeChan true) ;;;
          ret Continue
        else ret Continue
    end.

(** The loop itself, for a bounded number of iterations: [true] when
    the loop was left by [break]. *)
Fixpoint memberMonitorLoop (fuel : nat) : M bool :=
  match fuel with
  | O => ret false
  | S fuel' =>
      s <- memberMonitorStep ;;
      match s with
      | Break => ret true
      | Continue => memberMonitorLoop fuel'
      end
  end.

(** ** Member heartbeat *)

Definition generateMemberJSON : M (string * option error) :=
  now <- Now ;;
  let memberJSON :=
    mkMemberJSON MemberID Hostname (cfgListenAddress cfg) now
                 (cfgTags cfg) (cfgVersion cfg) (cfgSemVer cfg) in
  match Marshal_Member json memberJSON with
  | (_, Some e) =>
      ret ("", Some (Errorf ("Unable to marshal memberJSON: " +:+ Error_text e)))
  | (data, None) => ret (data, None)
  end.

(** Re-create member dir structure, set initial state. *)
Definition createInitialMemberStructure (memberDir : string)
           (heartbeatTimeoutInt : Z) : M (option error) :=
  r <- call (CallKeyExists memberDir) snd (KeyExists dal memberDir) ;;
  let '(exists_, _, err) := r in
  match err with
  | Some e =>
      ret (Some (Errorf ("Unable to verify pre-existence of member dir: "
                         +:+ Error_text e)))
  | None =>
      derr <- (if (exists_ : bool) then
                 call (CallDelete memberDir true) id (Delete dal memberDir true)
               else ret None) ;;
      match derr with
      | Some e =>
          ret (Some (Errorf ("Unable to delete pre-existing member dir '"
                             +:+ memberDir +:+ "': " +:+ Error_text e)))
      | None =>
          (* create initial dir *)
          let dirOpts := Some (mkSetOptions true heartbeatTimeoutInt "" false 0) in
          serr <- call (CallSet memberDir "" dirOpts) id
                       (Set_ dal memberDir "" dirOpts) ;;
          match serr with
          | Some e =>
              ret (Some (Errorf ("First member dir Set() failed: " +:+ Error_text e)))
          | None =>
              (* create initial member status *)
              g <- generateMemberJSON ;;
              let '(memberJSON, gerr) := g in
              match gerr with
              | Some e =>
                  ret (Some (Errorf ("Unable to generate initial member JSON: "
                                     +:+ Error e)))
              | None =>
                  terr <- call (CallSet (memberDir +:+ "/status") memberJSON None) id
                               (Set_ dal (memberDir +:+ "/status") memberJSON None) ;;
                  match terr with
                  | Some e =>
                      ret (Some (Errorf ("Unable to create initial state: "
                                         +:+ Error_text e)))
                  | None =>
                      (* create member config dir *)
                      let cfgOpts := Some (mkSetOptions true 0 "" false 0) in
                      cerr <- call (CallSet (memberDir +:+ "/config") "" cfgOpts) id
                                   (Set_ dal (memberDir +:+ "/config") "" cfgOpts) ;;
                      match cerr with
                      | Some e =>
                          ret (Some (Errorf ("Creating member config dir failed: "
                                             +:+ Error_text e)))
                      | None => ret None
                      end
                  end
              end
          end
      end
  end.

Definition memberDir : string := "cluster/members/" +:+ MemberID.

Definition heartbeatTimeoutInt : Z :=
  Go.int_of_float (Go.Seconds (HeartbeatTimeout cfg)).

(** How the part of [runMemberHeartbeat] before the loop ends: with
    [log.Fatalf], which exits the process, or by reaching the send on
    [initFinished]. *)
Inductive InitOutcome :=
| Fatal (msg : string)
| Initialised.

Definition memberHeartbeatInit : M InitOutcome :=
  err <- createInitialMemberStructure memberDir heartbeatTimeoutInt ;;
  match err with
  | Some e =>
      ret (Fatal (Identifier
                  +:+ "-memberHeartbeat: Unable to create initial member dir: "
                  +:+ Error e))
  | None => ret Initialised
  end.

(** The goroutine started at the end of each tick. *)
Definition refreshMemberDir (memberDir : string) (ttl : Z) : M unit :=
  err <- call (CallRefresh memberDir heartbeatTimeoutInt) id
              (Refresh dal memberDir heartbeatTimeoutInt) ;;
  match err with
  | Some e =>
      eqAddWithErrorLog "error"
        (Identifier +:+ "-runMemberHeartbeat: Unable to refresh member dir '"
         +:+ memberDir +:+ "' (retrying in "
         +:+ Duration_String json (HeartbeatInterval cfg) +:+ "): "
         +:+ Error_text e) ;;;
      emit (EvHealth false
              ("Cluster engine encountering etcd error(s) during refresh: "
               +:+ Error_text e)) ;;;
      emit (EvOverwatchChan
              (mkMessage (Errorf ("Unable to refresh key in etcd: " +:+ Error_text e))
                         (Identifier +:+ ".runMemberHeartbeat")
                         ETCD_GENERIC_ERROR))
  | None => ret tt
  end.

Definition runGoroutine (g : Goroutine) : M unit :=
  match g with
  | GoRefresh dir ttl => refreshMemberDir dir ttl
  end.

(** The body of the loop of [runMemberHeartbeat]. *)
Definition memberHeartbeatTick : M (option error) :=
  g <- generateMemberJSON ;;
  let '(memberJSON, gerr) := g in
  match gerr with
  | Some e =>
      eqAddWithErrorLog "error"
        (Identifier +:+ "-runMemberHeartbeat: Unable to generate member JSON (retrying in "
         +:+ Duration_String json (HeartbeatInterval cfg) +:+ "): " +:+ Error e) ;;;
      ret None
  | None =>
      (* set status key (could fail) *)
      let opts := Some (mkSetOptions false 0 "" true 1) in
      serr <- call (CallSet (memberDir +:+ "/status") memberJSON opts) id
                   (Set_ dal (memberDir +:+ "/status") memberJSON opts) ;;
      match serr with
      | Some e =>
          eqAddWithErrorLog "error"
            (Identifier +:+ "-runMemberHeartbeat: Unable to save member JSON status (retrying in "
             +:+ Duration_String json (HeartbeatInterval cfg) +:+ "): "
             +:+ Error_text e) ;;;
          emit (EvHealth false
                  ("Cluster engine encountering etcd error(s) during set: "
                   +:+ Error_text e)) ;;;
          emit (EvOverwatchChan
                  (mkMessage (Errorf ("Unable to save key to etcd: " +:+ Error_text e))
                             (Identifier +:+ ".runMemberHeartbeat")
                             ETCD_GENERIC_ERROR)) ;;;
          ret None
      | None =>
          (* refresh dir *)
          emit (EvGo (GoRefresh memberDir heartbeatTimeoutInt)) ;;;
          ret None
      end
  end.

(** The calls of a complete initialisation, in order: [existed] is
    what [KeyExists] answered, [memberJSON] the serialised member record. *)
Definition initialCalls (existed : bool) (memberJSON : string) : list DalCall :=
  CallKeyExists memberDir ::
  (if existed then [CallDelete memberDir true] else []) ++
  [CallSet memberDir "" (Some (mkSetOptions true heartbeatTimeoutInt "" false 0));
   CallSet (memberDir +:+ "/status") memberJSON None;
   CallSet (memberDir +:+ "/config") "" (Some (mkSetOptions true 0 "" false 0))].

(** ** Trace projections *)

Definition since (w w' : World) : list Event :=
  drop (length (trace w)) (trace w').

Definition dalCall (e : Event) : option DalCall :=
  match e with
  | EvDal c _ => Some c
  | _ => None
  end.

Definition dalCalls (evs : list Event) : list DalCall := omap dalCall evs.

(** Calls that write [cluster/director]. *)
Definition isDirectorWrite (c : DalCall) : bool :=
  match c with
  | CallUpdateDirectorState _ _ _ => true
  | CallCreateDirectorState _ => true
  | _ => false
  end.

Definition directorWrites (evs : list Event) : list DalCall :=
  List.filter isDirectorWrite (dalCalls evs).

(** Calls that change the store ([Get], [KeyExists] and the watcher only
    read). *)
Definition isStoreWrite (c : DalCall) : bool :=
  match c with
  | CallUpdateDirectorState _ _ _ => true
  | CallCreateDirectorState _ => true
  | CallDelete _ _ => true
  | CallSet _ _ _ => true
  | CallRefresh _ _ => true
  | _ => false
  end.

Definition storeWrites (evs : list Event) : list DalCall :=
  List.filter isStoreWrite (dalCalls evs).

Definition stateChanSend (e : Event) : option bool :=
  match e with
  | EvStateChan b => Some b
  | _ => None
  end.

Definition stateChanSends (evs : list Event) : list bool := omap stateChanSend evs.

Definition distributeSend (e : Event) : option bool :=
  match e with
  | EvDistributeChan b => Some b
  | _ => None
  end.

Definition distributeSends (evs : list Event) : list bool := omap distributeSend evs.

Definition spawned (e : Event) : option Goroutine :=
  match e with
  | EvGo g => Some g
  | _ => None
  end.

Definition goroutines (evs : list Event) : list Goroutine := omap spawned evs.

(** ** Start: the goroutines and the init-complete channel

    [Start] launches the four loops as goroutines and waits on
    [initFinished] (a channel with a buffer of one) before it launches
    the member monitor. The goroutines are interleaved by a scheduler;
    one step of a goroutine is one statement of [Start], the
    initialisation of the member heartbeat, its send, or one loop body. *)

(** The statement [Start] is about to run. *)
Inductive StartPC :=
| AtGoDirectorMonitor
| AtGoDirectorHeartbeat
| AtGoMemberHeartbeat
| AtRecvInitFinished
| AtGoMemberMonitor
| AtReturn
| Returned.

Inductive HeartbeatPC :=
| HbNotStarted
| HbAtCreate
| HbAtSend
| HbInLoop.

Inductive MonitorPC :=
| MmNotStarted
| MmAtNewWatcher
| MmInLoop
| MmExited.

Inductive Thread :=
| TStart
| TDirectorMonitor
| TDirectorHeartbeat
| TMemberHeartbeat
| TMemberMonitor
| TRefresh.

Inductive Label :=
| LGoDirectorMonitor
| LGoDirectorHeartbeat
| LGoMemberHeartbeat
| LGoMemberMonitor
| LMemberStructureCreated
| LFatal (msg : string)
| LPanic (msg : string)
| LSendInitFinished
| LRecvInitFinished
| LStartReturned
| LTick (t : Thread).

Record System := mkSystem {
  world : World;
  startPC : StartPC;
  directorMonitor : bool;
  directorHeartbeat : bool;
  memberHeartbeat : HeartbeatPC;
  memberMonitor : MonitorPC;
  initFinished : list bool;
  refreshed : nat;
  exited : bool
}.

Definition initSystem (w : World) : System :=
  mkSystem w AtGoDirectorMonitor false false HbNotStarted MmNotStarted [] 0 false.

Definition setWorld (s : System) (w : World) : System :=
  mkSystem w (startPC s) (directorMonitor s) (directorHeartbeat s)
           (memberHeartbeat s) (memberMonitor s) (initFinished s)
           (refreshed s) (exited s).

Definition exit (s : System) : System :=
  mkSystem (world s) (startPC s) (directorMonitor s) (directorHeartbeat s)
           (memberHeartbeat s) (memberMonitor s) (initFinished s)
           (refreshed s) true.

(** Run a loop body of thread [t] on the shared world; a panic ends the
    process. *)
Definition tick {A} (t : Thread) (body : M A) (s : System) : Label * System :=
  match body (world s) with
  | (Ret _, w') => (LTick t, setWorld s w')
  | (Panic msg, w') => (LPanic msg, exit (setWorld s w'))
  end.

Definition stepStart (s : System) : option (Label * System) :=
  match startPC s with
  | AtGoDirectorMonitor =>
      Some (LGoDirectorMonitor,
            mkSystem (world s) AtGoDirectorHeartbeat true (directorHeartbeat s)
                     (memberHeartbeat s) (memberMonitor s) (initFinished s)
                     (refreshed s) (exited s))
  | AtGoDirectorHeartbeat =>
      Some (LGoDirectorHeartbeat,
            mkSystem (world s) AtGoMemberHeartbeat (directorMonitor s) true
                     (memberHeartbeat s) (memberMonitor s) (initFinished s)
                     (refreshed s) (exited s))
  | AtGoMemberHeartbeat =>
      Some (LGoMemberHeartbeat,
            mkSystem (world s) AtRecvInitFinished (directorMonitor s)
                     (directorHeartbeat s) HbAtCreate (memberMonitor s)
                     (initFinished s) (refreshed s) (exited s))
  | AtRecvInitFinished =>
      (* <-c.initFinished blocks while the channel is empty *)
      match initFinished s with
      | [] => None
      | _ :: rest =>
          Some (LRecvInitFinished,
                mkSystem (world s) AtGoMemberMonitor (directorMonitor s)
                         (directorHeartbeat s) (memberHeartbeat s)
                         (memberMonitor s) rest (refreshed s) (exited s))
      end
  | AtGoMemberMonitor =>
      Some (LGoMemberMonitor,
            mkSystem (world s) AtReturn (directorMonitor s)
                     (directorHeartbeat s) (memberHeartbeat s)
                     MmAtNewWatcher (initFinished s) (refreshed s) (exited s))
  | AtReturn =>
      Some (LStartReturned,
            mkSystem (world s) Returned (directorMonitor s)
                     (directorHeartbeat s) (memberHeartbeat s)
                     (memberMonitor s) (initFinished s) (refreshed s) (exited s))
  | Returned => None
  end.

Definition stepMemberHeartbeat (s : System) : option (Label * System) :=
  match memberHeartbeat s with
  | HbNotStarted => None
  | HbAtCreate =>
      match memberHeartbeatInit (world s) with
      | (Ret Initialised, w') =>
          Some (LMemberStructureCreated,
                mkSystem w' (startPC s) (directorMonitor s) (directorHeartbeat s)
                         HbAtSend (memberMonitor s) (initFinished s)
                         (refreshed s) (exited s))
      | (Ret (Fatal msg), w') => Some (LFatal msg, exit (setWorld s w'))
      | (Panic msg, w') => Some (LPanic msg, exit (setWorld s w'))
      end
  | HbAtSend =>
      (* c.initFinished <- true blocks while the buffer (of one) is full *)
      match initFinished s with
      | [] =>
          Some (LSendInitFinished,
                mkSystem (world s) (startPC s) (directorMonitor s)
                         (directorHeartbeat s) HbInLoop (memberMonitor s)
                         [true] (refreshed s) (exited s))
      | _ :: _ => None
      end
  | HbInLoop => Some (tick TMemberHeartbeat memberHeartbeatTick s)
  end.

Definition stepMemberMonitor (s : System) : option (Label * System) :=
  match memberMonitor s with
  | MmNotStarted => None
  | MmAtNewWatcher =>
      match newMemberWatcher (world s) with
      | (_, w') =>
          Some (LTick TMemberMonitor,
                mkSystem w' (startPC s) (directorMonitor s) (directorHeartbeat s)
                         (memberHeartbeat s) MmInLoop (initFinished s)
                         (refreshed s) (exited s))
      end
  | MmInLoop =>
      match memberMonitorStep (world s) with
      | (Ret Continue, w') => Some (LTick TMemberMonitor, setWorld s w')
      | (Ret Break, w') =>
          Some (LTick TMemberMonitor,
                mkSystem w' (startPC s) (directorMonitor s) (directorHeartbeat s)
                         (memberHeartbeat s) MmExited (initFinished s)
                         (refreshed s) (exited s))
      | (Panic msg, w') => Some (LPanic msg, exit (setWorld s w'))
      end
  | MmExited => None
  end.

(** The next refresh goroutine that was started and has not run yet. *)
Definition stepRefresh (s : System) : option (Label * System) :=
  match goroutines (trace (world s)) !! refreshed s with
  | None => None
  | Some g =>
      let '(l, s') := tick TRefresh (runGoroutine g) s in
      Some (l, mkSystem (world s') (startPC s') (directorMonitor s')
                        (directorHeartbeat s') (memberHeartbeat s')
                        (memberMonitor s') (initFinished s')
                        (S (refreshed s')) (exited s'))
  end.

(** One step of thread [t]; [None] when [t] cannot move (not started,
    blocked, finished, or the process has exited). *)
Definition step (t : Thread) (s : System) : option (Label * System) :=
  if exited s then None
  else
    match t with
    | TStart => stepStart s
    | TDirectorMonitor =>
        if directorMonitor s then Some (tick TDirectorMonitor directorMonitorTick s)
        else None
    | TDirectorHeartbeat =>
        if directorHeartbeat s then Some (tick TDirectorHeartbeat directorHeartbeatTick s)
        else None
    | TMemberHeartbeat => stepMemberHeartbeat s
    | TMemberMonitor => stepMemberMonitor s
    | TRefresh => stepRefresh s
    end.

(** Run a schedule: the scheduler's choices in order; a choice that
    cannot move is skipped. The labels come out in the order they
    happened. *)
Fixpoint run (sched : list Thread) (s : System) : list Label * System :=
  match sched with
  | [] => ([], s)
  | t :: sched' =>
      match step t s with
      | Some (l, s') =>
          let '(ls, s'') := run sched' s' in (l :: ls, s'')
      | None => run sched' s
      end
  end.

(** Orderings in a list of labels: the member structure was created
    ([created]); then the init-complete signal was sent ([signalled]);
    then [Start] received it ([received]); all before position [i]
    ([receivedBefore]). *)
Definition created (ls : list Label) : Prop :=
  exists a, ls !! a = Some LMemberStructureCreated.

Definition signalled (ls : list Label) : Prop :=
  exists a b, (a < b)%nat /\
    ls !! a = Some LMemberStructureCreated /\
    ls !! b = Some LSendInitFinished.

Definition receivedBefore (ls : list Label) (i : nat) : Prop :=
  exists a b c, (a < b)%nat /\ (b < c)%nat /\ (c < i)%nat /\
    ls !! a = Some LMemberStructureCreated /\
    ls !! b = Some LSendInitFinished /\
    ls !! c = Some LRecvInitFinished.

(** What holds of the labels so far and the state they led to. *)
Definition StartInv (ls : list Label) (s : System) : Prop :=
  (memberHeartbeat s = HbAtSend -> created ls) /\
  (initFinished s <> [] -> signalled ls) /\
  (startPC s = AtGoMemberMonitor -> receivedBefore ls (length ls)) /\
  (forall i, ls !! i = Some LGoMemberMonitor -> receivedBefore ls i).

(** * Properties *)

(** Unfold the plumbing of the monad. *)
Ltac unfold_m :=
  unfold bind, ret, panic, emit, call, Now, amDirector, setDirectorState,
    eqAddWithErrorLog in *.

Lemma since_app (w w' : World) (evs : list Event) :
  trace w' = trace w ++ evs -> since w w' = evs.
Proof.
  intros H. unfold since. rewrite H. apply drop_app_length.
Qed.

(** ** Director heartbeat *)

(** C8. On a tick of the director heartbeat: a node that is not director
    does nothing at all (the world, and so the store, is unchanged); a
    director whose record serialises issues exactly one call,
    [UpdateDirectorState(data, "", true)] with the fresh record
    {SELF, NOW}, and whatever the store answers the role flag stays true;
    a failure is only logged to the event queue. *)
Theorem directorHeartbeatTick_writes (w : World) :
  (DirectorState w = false -> directorHeartbeatTick w = (Ret None, w)) /\
  (DirectorState w = true ->
   forall data,
     Marshal_Director json (Some (mkDirectorJSON MemberID (clock (reads w))))
       = (data, None) ->
     let '(err, s') := UpdateDirectorState dal data "" true (store w) in
     directorHeartbeatTick w =
       (Ret None,
        mkWorld true s' (S (reads w))
          (trace w ++
           EvDal (CallUpdateDirectorState data "" true) err ::
           match err with
           | Some e =>
               [EvEventQueue "error"
                  (Identifier +:+ "-directorHeartbeat: "
                   +:+ "Unable to update director heartbeat: " +:+ Error_text e)]
           | None => []
           end))).
Proof.
  split.
  - intros Hd. unfold directorHeartbeatTick. unfold_m. rewrite Hd. reflexivity.
  - intros Hd data Hm.
    destruct (UpdateDirectorState dal data "" true (store w)) as [err s'] eqn:Hu.
    unfold directorHeartbeatTick, sendDirectorHeartbeat. unfold_m.
    rewrite Hd. cbn. rewrite Hm. cbn. rewrite Hu.
    destruct err as [e|]; cbn; rewrite <- ?app_assoc, ?Hd; reflexivity.
Qed.

(** ** Time *)

Lemma Seconds_le (a b : Go.Duration) :
  Qle_bool (Go.Seconds a) (Go.Seconds b) = (a <=? b).
Proof.
  unfold Go.Seconds, Qle_bool. cbn -[Z.mul Z.quot Z.rem Z.leb Z.add].
  pose proof (Z.quot_rem' a Go.Second) as Ha.
  pose proof (Z.quot_rem' b Go.Second) as Hb.
  unfold Go.Second in *.
  apply eq_true_iff_eq. rewrite !Z.leb_le. lia.
Qed.

Lemma float_gt_Seconds (a b : Go.Duration) :
  Go.float_gt (Go.Seconds a) (Go.Seconds b) = (b <? a).
Proof.
  unfold Go.float_gt. rewrite Seconds_le, Z.ltb_antisym. reflexivity.
Qed.

Lemma isExpired_eq (lastUpdated : Go.Time) (w : World) :
  isExpired lastUpdated w =
    (Ret (HeartbeatTimeout cfg <? Go.Sub (clock (reads w)) lastUpdated),
     mkWorld (DirectorState w) (store w) (S (reads w)) (trace w)).
Proof.
  unfold isExpired. unfold_m. cbn. rewrite float_gt_Seconds.
  destruct (_ <? _); reflexivity.
Qed.

(** ** changeState *)

Lemma changeState_STOP (prev : option DirectorJSON) (etcdAction : Z) (w : World) :
  changeState STOP prev etcdAction w =
    (Ret None, mkWorld false (store w) (reads w) (trace w ++ [EvStateChan false])).
Proof. reflexivity. Qed.

Lemma changeState_START_NOOP (prev : option DirectorJSON) (w : World) :
  changeState START prev NOOP w =
    (Ret None, mkWorld true (store w) (reads w) (trace w ++ [EvStateChan true])).
Proof. reflexivity. Qed.

Lemma changeState_START_CREATE (prev : option DirectorJSON) (w : World) (data : string) :
  Marshal_Director json (Some (mkDirectorJSON MemberID (clock (reads w)))) = (data, None) ->
  changeState START prev CREATE w =
    match CreateDirectorState dal data (store w) with
    | (Some e, s') =>
        (Ret (Some (Errorf ("Unable to update director state: "
                            +:+ "Unable to create director state in dal: "
                            +:+ Error_text e))),
         mkWorld (DirectorState w) s' (S (reads w))
                 (trace w ++ [EvDal (CallCreateDirectorState data) (Some e)]))
    | (None, s') =>
        (Ret None,
         mkWorld true s' (S (reads w))
                 (trace w ++ [EvDal (CallCreateDirectorState data) None;
                              EvStateChan true]))
    end.
Proof.
  intros Hm. unfold changeState, updateState. unfold_m. cbn. rewrite Hm. cbn.
  destruct (CreateDirectorState dal data (store w)) as [[e|] s']; cbn;
    rewrite <- ?app_assoc; reflexivity.
Qed.

Lemma changeState_START_UPDATE (prev : option DirectorJSON) (w : World)
      (data prevData : string) :
  Marshal_Director json (Some (mkDirectorJSON MemberID (clock (reads w)))) = (data, None) ->
  Marshal_Director json prev = (prevData, None) ->
  changeState START prev UPDATE w =
    match UpdateDirectorState dal data prevData false (store w) with
    | (Some e, s') =>
        (Ret (Some (Errorf ("Unable to update director state: "
                            +:+ "Unable to update director state in dal: "
                            +:+ Error_text e))),
         mkWorld (DirectorState w) s' (S (reads w))
                 (trace w ++ [EvDal (CallUpdateDirectorState data prevData false) (Some e)]))
    | (None, s') =>
        (Ret None,
         mkWorld true s' (S (reads w))
                 (trace w ++ [EvDal (CallUpdateDirectorState data prevData false) None;
                              EvStateChan true]))
    end.
Proof.
  intros Hm Hp. unfold changeState, updateState. unfold_m. cbn. rewrite Hm. cbn.
  rewrite Hp. cbn.
  destruct (UpdateDirectorState dal data prevData false (store w)) as [[e|] s']; cbn;
    rewrite <- ?app_assoc; reflexivity.
Qed.


(** ** Observation *)

Lemma getState_found (w : World) (data : gmap string string) (s' : St)
      (blob : string) (d : DirectorJSON) :
  Get dal DIRECTOR_KEY (store w) = ((data, None), s') ->
  IsKeyNotFound dal None = false ->
  data !! DIRECTOR_KEY = Some blob ->
  Unmarshal_Director json blob = (d, None) ->
  getState w =
    (Ret (Some d, None),
     mkWorld (DirectorState w) s' (reads w)
             (trace w ++ [EvDal (CallGet DIRECTOR_KEY) None])).
Proof.
  intros Hg Hk Hl Hu. unfold getState. unfold_m. rewrite Hg. cbn.
  rewrite Hk, Hl, Hu. reflexivity.
Qed.

(** ** The role state machine *)

Lemma handleState_other_director (d : DirectorJSON) (w : World) :
  dMemberID d <> MemberID ->
  DirectorState w = true ->
  handleState (Some d) w =
    (Ret None, mkWorld false (store w) (reads w) (trace w ++ [EvStateChan false])).
Proof.
  intros Hne Hd. apply String.eqb_neq in Hne.
  unfold handleState. rewrite Hne. cbn. unfold_m. rewrite Hd. reflexivity.
Qed.

(** C2. When the observed record names another member and the local
    flag is true, [handleState] returns nil, clears the flag, sends
    [false] on [StateChan], and that send is its only effect: the store
    is the same and no call into [dal] was made. For the whole tick of
    the director monitor the only call is the [Get] that made the
    observation, so no call of the tick writes to the store. *)
Theorem stop_no_store_write (d : DirectorJSON) (w : World) :
  dMemberID d <> MemberID ->
  DirectorState w = true ->
  handleState (Some d) w =
    (Ret None, mkWorld false (store w) (reads w) (trace w ++ [EvStateChan false])) /\
  (forall data s' blob,
     Get dal DIRECTOR_KEY (store w) = ((data, None), s') ->
     IsKeyNotFound dal None = false ->
     data !! DIRECTOR_KEY = Some blob ->
     Unmarshal_Director json blob = (d, None) ->
     directorMonitorTick w =
       (Ret None,
        mkWorld false s' (reads w)
                (trace w ++ [EvDal (CallGet DIRECTOR_KEY) None; EvStateChan false])) /\
     storeWrites (since w (snd (directorMonitorTick w))) = []).
Proof.
  intros Hne Hd. split; [apply handleState_other_director; assumption|].
  intros data s' blob Hg Hk Hl Hu.
  assert (Ht : directorMonitorTick w =
       (Ret None,
        mkWorld false s' (reads w)
                (trace w ++ [EvDal (CallGet DIRECTOR_KEY) None; EvStateChan false]))).
  { unfold directorMonitorTick. unfold bind at 1.
    rewrite (getState_found w data s' blob d Hg Hk Hl Hu).
    unfold bind. rewrite handleState_other_director by assumption.
    cbn. rewrite <- app_assoc. reflexivity. }
  split; [exact Ht|].
  rewrite Ht. cbn.
  rewrite (since_app w _ [EvDal (CallGet DIRECTOR_KEY) None; EvStateChan false])
    by reflexivity.
  reflexivity.
Qed.


(** C3, as the code has it. When the store reports key-not-found,
    [getState] returns a nil record and a nil error. When [Get] succeeds
    and the map it returns has no entry for the director key, [getState]
    returns a nil record and the error "Uhh, no 'director' entry in map?
    Seems like a bug": this case is not taken for an absent director. *)
Theorem getState_missing_value (w : World) :
  let data := fst (fst (Get dal DIRECTOR_KEY (store w))) in
  let err := snd (fst (Get dal DIRECTOR_KEY (store w))) in
  let w' := mkWorld (DirectorState w) (snd (Get dal DIRECTOR_KEY (store w)))
                    (reads w) (trace w ++ [EvDal (CallGet DIRECTOR_KEY) err]) in
  (IsKeyNotFound dal err = true -> getState w = (Ret (None, None), w')) /\
  (IsKeyNotFound dal err = false ->
   err = None ->
   data !! DIRECTOR_KEY = None ->
   getState w =
     (Ret (None, Some (Errorf "Uhh, no 'director' entry in map? Seems like a bug")),
      w')).
Proof.
  cbv zeta. unfold getState. unfold_m.
  destruct (Get dal DIRECTOR_KEY (store w)) as [[data err] s']. cbn.
  split.
  - intros Hk. rewrite Hk. reflexivity.
  - intros Hk -> Hl. rewrite Hk, Hl. reflexivity.
Qed.

(** ** Member monitor *)

(** C4. One iteration of the member monitor while director, for an
    event the watcher delivered without error. The iteration goes on to
    the next one, and what it sends on [DistributeChan] is:
    for "set", [true] when the node is a directory whose base name is not
    "config", and nothing otherwise; for "expire", [true]; for any other
    action, nothing. *)
Theorem memberMonitorStep_event (w : World) (resp : Response) (s' : St) :
  DirectorState w = true ->
  WatcherNext dal (store w) = ((resp, None), s') ->
  let w' := snd (memberMonitorStep w) in
  fst (memberMonitorStep w) = Ret Continue /\
  (Action resp = "set" ->
   (NodeDir resp = true /\ Go.Base (NodeKey resp) <> "config" ->
    distributeSends (since w w') = [true]) /\
   (NodeDir resp = false \/ Go.Base (NodeKey resp) = "config" ->
    distributeSends (since w w') = [])) /\
  (Action resp = "expire" -> distributeSends (since w w') = [true]) /\
  (Action resp <> "set" -> Action resp <> "expire" ->
   distributeSends (since w w') = []).
Proof.
  intros Hd Hn. cbv zeta.
  unfold memberMonitorStep. unfold_m. rewrite Hd. cbn. rewrite Hn. cbn.
  destruct (String.eqb_spec (Action resp) "set") as [Hset|Hset].
  - destruct (NodeDir resp) eqn:Hdir; cbn.
    + destruct (String.eqb_spec (Go.Base (NodeKey resp)) "config") as [Hc|Hc]; cbn.
      * rewrite (since_app w _ [EvDal CallWatcherNext None]) by reflexivity.
        split; [reflexivity|]. split; [|split].
        -- intros _. split; [intros [_ H]; contradiction|reflexivity].
        -- rewrite Hset. discriminate.
        -- intros H; contradiction.
      * rewrite (since_app w _ [EvDal CallWatcherNext None; EvDistributeChan true])
          by (cbn; rewrite <- app_assoc; reflexivity).
        split; [reflexivity|]. split; [|split].
        -- intros _. split; [reflexivity|]. intros [H|H]; [discriminate|contradiction].
        -- rewrite Hset. discriminate.
        -- intros H; contradiction.
    + rewrite (since_app w _ [EvDal CallWatcherNext None]) by reflexivity.
      split; [reflexivity|]. split; [|split].
      * intros _. split; [intros [H _]; discriminate|reflexivity].
      * rewrite Hset. discriminate.
      * intros H; contradiction.
  - destruct (String.eqb_spec (Action resp) "expire") as [Hex|Hex]; cbn.
    + rewrite (since_app w _ [EvDal CallWatcherNext None; EvDistributeChan true])
        by (cbn; rewrite <- app_assoc; reflexivity).
      split; [reflexivity|]. split; [intros H; contradiction|].
      split; [reflexivity|]. intros _ H; contradiction.
    + rewrite (since_app w _ [EvDal CallWatcherNext None]) by reflexivity.
      split; [reflexivity|]. split; [intros H; contradiction|].
      split; [intros H; contradiction|reflexivity].
Qed.

(** ** Member heartbeat *)

Lemma int_of_float_Seconds (d : Go.Duration) :
  Go.int_of_float (Go.Seconds d) = Z.quot d Go.Second.
Proof.
  unfold Go.int_of_float, Go.Seconds. cbn -[Z.mul Z.quot Z.rem Z.add].
  pose proof (Z.quot_rem' d Go.Second) as Hd. unfold Go.Second in *.
  f_equal. lia.
Qed.

Lemma heartbeatTimeoutInt_eq :
  heartbeatTimeoutInt = Z.quot (HeartbeatTimeout cfg) Go.Second.
Proof. apply int_of_float_Seconds. Qed.

(** What every run of the initialisation satisfies; the error branches
    of the five calls are closed by [init_fail]. *)
Ltac init_fail :=
  split; [right; eauto|];
  split; [discriminate|];
  split; [intros; eauto|];
  erewrite since_app by (cbn; rewrite <- ?app_assoc; reflexivity);
  cbn; eexists; reflexivity.

Ltac init_done :=
  split; [left; reflexivity|];
  erewrite since_app by (cbn; rewrite <- ?app_assoc; reflexivity);
  split; [intros _; split; reflexivity|];
  split; [|cbn; exists []; reflexivity];
  cbn; intros c e H; repeat (destruct H as [H|H]; [discriminate|]); destruct H.

Lemma memberHeartbeatInit_cases (w : World) :
  let r := fst (memberHeartbeatInit w) in
  let w' := snd (memberHeartbeatInit w) in
  let existed := fst (fst (fst (KeyExists dal memberDir (store w)))) in
  let member :=
    Marshal_Member json
      (mkMemberJSON MemberID Hostname (cfgListenAddress cfg) (clock (reads w))
                    (cfgTags cfg) (cfgVersion cfg) (cfgSemVer cfg)) in
  (r = Ret Initialised \/ exists msg, r = Ret (Fatal msg)) /\
  (r = Ret Initialised ->
   since w w' = map (fun c => EvDal c None) (initialCalls existed (fst member)) /\
   snd member = None) /\
  (forall c e, In (EvDal c (Some e)) (since w w') -> exists msg, r = Ret (Fatal msg)) /\
  dalCalls (since w w') `prefix_of` initialCalls existed (fst member).
Proof.
  cbv zeta.
  unfold memberHeartbeatInit, createInitialMemberStructure, generateMemberJSON,
    initialCalls.
  unfold_m.
  destruct (KeyExists dal memberDir (store w)) as [[[existed isDir] [e1|]] s1]; cbn;
    [init_fail|].
  destruct existed; cbn.
  - destruct (Delete dal memberDir true s1) as [[e2|] s2]; cbn; [init_fail|].
    destruct (Set_ dal memberDir "" _ s2) as [[e3|] s3]; cbn; [init_fail|].
    destruct (Marshal_Member json _) as [mj [e4|]]; cbn; [init_fail|].
    destruct (Set_ dal (memberDir +:+ "/status") mj None s3) as [[e5|] s4]; cbn;
      [init_fail|].
    destruct (Set_ dal (memberDir +:+ "/config") "" _ s4) as [[e6|] s5]; cbn;
      [init_fail|init_done].
  - destruct (Set_ dal memberDir "" _ s1) as [[e3|] s3]; cbn; [init_fail|].
    destruct (Marshal_Member json _) as [mj [e4|]]; cbn; [init_fail|].
    destruct (Set_ dal (memberDir +:+ "/status") mj None s3) as [[e5|] s4]; cbn;
      [init_fail|].
    destruct (Set_ dal (memberDir +:+ "/config") "" _ s4) as [[e6|] s5]; cbn;
      [init_fail|init_done].
Qed.


Lemma In_dalCalls (c : DalCall) (err : option E) (evs : list Event) :
  In (EvDal c err) evs -> In c (dalCalls evs).
Proof.
  induction evs as [|e evs IH]; [intros []|].
  intros [->|H]; cbn.
  - left. reflexivity.
  - destruct (dalCall e); [right|]; apply IH, H.
Qed.


(** ** Start *)

Lemma created_app (ls : list Label) (l : Label) : created ls -> created (ls ++ [l]).
Proof.
  intros [a Ha]. exists a. apply lookup_app_l_Some. exact Ha.
Qed.

Lemma signalled_app (ls : list Label) (l : Label) :
  signalled ls -> signalled (ls ++ [l]).
Proof.
  intros (a & b & Hab & Ha & Hb). exists a, b.
  split; [exact Hab|]. split; apply lookup_app_l_Some; assumption.
Qed.

Lemma receivedBefore_app (ls : list Label) (l : Label) (i : nat) :
  receivedBefore ls i -> receivedBefore (ls ++ [l]) i.
Proof.
  intros (a & b & c & Hab & Hbc & Hci & Ha & Hb & Hc). exists a, b, c.
  repeat split; try assumption; apply lookup_app_l_Some; assumption.
Qed.

Lemma receivedBefore_mono (ls : list Label) (i j : nat) :
  (i <= j)%nat -> receivedBefore ls i -> receivedBefore ls j.
Proof.
  intros Hij (a & b & c & Hab & Hbc & Hci & H). exists a, b, c.
  split; [exact Hab|]. split; [exact Hbc|]. split; [lia|exact H].
Qed.

Lemma created_signal (ls : list Label) :
  created ls -> signalled (ls ++ [LSendInitFinished]).
Proof.
  intros [a Ha]. exists a, (length ls).
  split; [apply lookup_lt_Some in Ha; exact Ha|].
  split; [apply lookup_app_l_Some; exact Ha|].
  apply list_lookup_middle. reflexivity.
Qed.

Lemma signalled_receive (ls : list Label) :
  signalled ls ->
  receivedBefore (ls ++ [LRecvInitFinished]) (length (ls ++ [LRecvInitFinished])).
Proof.
  intros (a & b & Hab & Ha & Hb). exists a, b, (length ls).
  split; [exact Hab|].
  split; [apply lookup_lt_Some in Hb; exact Hb|].
  split; [rewrite length_app; cbn; lia|].
  split; [apply lookup_app_l_Some; exact Ha|].
  split; [apply lookup_app_l_Some; exact Hb|].
  apply list_lookup_middle. reflexivity.
Qed.

(** A label other than the four of the protocol, appended to a state
    whose control part is unchanged, keeps the invariant. *)
Lemma StartInv_frame (ls : list Label) (l : Label) (s s' : System) :
  StartInv ls s ->
  memberHeartbeat s' = memberHeartbeat s ->
  initFinished s' = initFinished s ->
  (startPC s' = AtGoMemberMonitor -> startPC s = AtGoMemberMonitor) ->
  l <> LGoMemberMonitor ->
  StartInv (ls ++ [l]) s'.
Proof.
  intros (H1 & H2 & H3 & H4) Hh Hc Hp Hl.
  split; [|split; [|split]].
  - rewrite Hh. intros H. apply created_app, H1, H.
  - rewrite Hc. intros H. apply signalled_app, H2, H.
  - intros H. apply receivedBefore_app.
    apply (receivedBefore_mono ls (length ls)); [rewrite length_app; lia|].
    apply H3, Hp, H.
  - intros i Hi. apply receivedBefore_app.
    destruct (lookup_app_Some ls [l] i LGoMemberMonitor) as [Hcase _].
    destruct (Hcase Hi) as [Hin|[_ Hin]]; [apply H4, Hin|].
    destruct (i - length ls)%nat; cbn in Hin; [congruence|discriminate].
Qed.

Lemma tick_frame {A} (t : Thread) (body : M A) (ls : list Label) (l : Label)
      (s s' : System) :
  tick t body s = (l, s') ->
  StartInv ls s ->
  StartInv (ls ++ [l]) s'.
Proof.
  intros Ht H. unfold tick in Ht.
  destruct (body (world s)) as [[a|msg] w']; inversion Ht; subst;
    apply (StartInv_frame ls _ s); auto; discriminate.
Qed.

Lemma step_StartInv (t : Thread) (ls : list Label) (l : Label) (s s' : System) :
  StartInv ls s ->
  step t s = Some (l, s') ->
  StartInv (ls ++ [l]) s'.
Proof.
  intros Hinv Hstep. unfold step in Hstep.
  destruct (exited s); [discriminate|].
  destruct t.
  - (* Start *)
    unfold stepStart in Hstep.
    destruct (startPC s) eqn:Hpc.
    + inversion Hstep; subst. apply (StartInv_frame ls _ s); auto; discriminate.
    + inversion Hstep; subst. apply (StartInv_frame ls _ s); auto; discriminate.
    + inversion Hstep; subst. clear Hstep.
      destruct Hinv as (H1 & H2 & H3 & H4).
      split; [|split; [|split]]; cbn.
      * discriminate.
      * intros H. apply signalled_app, H2, H.
      * discriminate.
      * intros i Hi. apply receivedBefore_app.
        destruct (lookup_app_Some ls [LGoMemberHeartbeat] i LGoMemberMonitor)
          as [Hcase _].
        destruct (Hcase Hi) as [Hin|[_ Hin]]; [apply H4, Hin|].
        destruct (i - length ls)%nat; cbn in Hin; [congruence|discriminate].
    + destruct (initFinished s) as [|b rest] eqn:Hch; [discriminate|].
      inversion Hstep; subst. clear Hstep.
      destruct Hinv as (H1 & H2 & H3 & H4).
      assert (Hsig : signalled ls) by (apply H2; rewrite Hch; discriminate).
      split; [|split; [|split]]; cbn.
      * intros H. apply created_app, H1, H.
      * intros _. apply signalled_app, Hsig.
      * intros _. apply signalled_receive, Hsig.
      * intros i Hi. apply receivedBefore_app.
        destruct (lookup_app_Some ls [LRecvInitFinished] i LGoMemberMonitor)
          as [Hcase _].
        destruct (Hcase Hi) as [Hin|[_ Hin]]; [apply H4, Hin|].
        destruct (i - length ls)%nat; cbn in Hin; [congruence|discriminate].
    + inversion Hstep; subst. clear Hstep.
      destruct Hinv as (H1 & H2 & H3 & H4).
      split; [|split; [|split]]; cbn.
      * intros H. apply created_app, H1, H.
      * intros H. apply signalled_app, H2, H.
      * discriminate.
      * intros i Hi.
        destruct (lookup_app_Some ls [LGoMemberMonitor] i LGoMemberMonitor)
          as [Hcase _].
        apply receivedBefore_app.
        destruct (Hcase Hi) as [Hin|[Hge Hin]]; [apply H4, Hin|].
        apply (receivedBefore_mono ls (length ls)); [exact Hge|].
        apply H3. exact Hpc.
    + inversion Hstep; subst. apply (StartInv_frame ls _ s); auto; cbn; discriminate.
    + discriminate.
  - destruct (directorMonitor s); [|discriminate].
    inversion Hstep as [Ht]. apply (tick_frame _ _ _ _ _ _ Ht Hinv).
  - destruct (directorHeartbeat s); [|discriminate].
    inversion Hstep as [Ht]. apply (tick_frame _ _ _ _ _ _ Ht Hinv).
  - (* member heartbeat *)
    unfold stepMemberHeartbeat in Hstep.
    destruct (memberHeartbeat s) eqn:Hhb.
    + discriminate.
    + destruct (memberHeartbeatInit (world s)) as [[[msg|]|msg] w'];
        inversion Hstep; subst; clear Hstep.
      * destruct Hinv as (H1 & H2 & H3 & H4).
        split; [|split; [|split]]; cbn.
        -- rewrite Hhb. discriminate.
        -- intros H. apply signalled_app, H2, H.
        -- intros H. apply receivedBefore_app.
           apply (receivedBefore_mono ls (length ls)); [rewrite length_app; lia|].
           apply H3, H.
        -- intros i Hi. apply receivedBefore_app.
           destruct (lookup_app_Some ls [LFatal msg] i LGoMemberMonitor) as [Hcase _].
           destruct (Hcase Hi) as [Hin|[_ Hin]]; [apply H4, Hin|].
           destruct (i - length ls)%nat; cbn in Hin; [congruence|discriminate].
      * destruct Hinv as (H1 & H2 & H3 & H4).
        split; [|split; [|split]]; cbn.
        -- intros _. exists (length ls). apply list_lookup_middle. reflexivity.
        -- intros H. apply signalled_app, H2, H.
        -- intros H. apply receivedBefore_app.
           apply (receivedBefore_mono ls (length ls)); [rewrite length_app; lia|].
           apply H3, H.
        -- intros i Hi. apply receivedBefore_app.
           destruct (lookup_app_Some ls [LMemberStructureCreated] i LGoMemberMonitor)
             as [Hcase _].
           destruct (Hcase Hi) as [Hin|[_ Hin]]; [apply H4, Hin|].
           destruct (i - length ls)%nat; cbn in Hin; [congruence|discriminate].
      * destruct Hinv as (H1 & H2 & H3 & H4).
        split; [|split; [|split]]; cbn.
        -- rewrite Hhb. discriminate.
        -- intros H. apply signalled_app, H2, H.
        -- intros H. apply receivedBefore_app.
           apply (receivedBefore_mono ls (length ls)); [rewrite length_app; lia|].
           apply H3, H.
        -- intros i Hi. apply receivedBefore_app.
           destruct (lookup_app_Some ls [LPanic msg] i LGoMemberMonitor) as [Hcase _].
           destruct (Hcase Hi) as [Hin|[_ Hin]]; [apply H4, Hin|].
           destruct (i - length ls)%nat; cbn in Hin; [congruence|discriminate].
    + destruct (initFinished s) eqn:Hch; [|discriminate].
      inversion Hstep; subst; clear Hstep.
      destruct Hinv as (H1 & H2 & H3 & H4).
      split; [|split; [|split]]; cbn.
      * discriminate.
      * intros _. apply created_signal, H1. exact Hhb.
      * intros H. apply receivedBefore_app.
        apply (receivedBefore_mono ls (length ls)); [rewrite length_app; lia|].
        apply H3, H.
      * intros i Hi. apply receivedBefore_app.
        destruct (lookup_app_Some ls [LSendInitFinished] i LGoMemberMonitor)
          as [Hcase _].
        destruct (Hcase Hi) as [Hin|[_ Hin]]; [apply H4, Hin|].
        destruct (i - length ls)%nat; cbn in Hin; [congruence|discriminate].
    + inversion Hstep as [Ht]. apply (tick_frame _ _ _ _ _ _ Ht Hinv).
  - (* member monitor *)
    unfold stepMemberMonitor in Hstep.
    destruct (memberMonitor s); [discriminate| | |discriminate].
    + destruct (newMemberWatcher (world s)) as [r w'].
      inversion Hstep; subst. apply (StartInv_frame ls _ s); auto; discriminate.
    + destruct (memberMonitorStep (world s)) as [[[|]|msg] w'];
        inversion Hstep; subst; apply (StartInv_frame ls _ s); auto; discriminate.
  - (* refresh goroutine *)
    unfold stepRefresh in Hstep.
    destruct (goroutines (trace (world s)) !! refreshed s) as [g|]; [|discriminate].
    unfold tick in Hstep.
    destruct (runGoroutine g (world s)) as [[a|msg] w'];
      inversion Hstep; subst; apply (StartInv_frame ls _ s); auto; discriminate.
Qed.

Lemma run_StartInv (sched : list Thread) (ls : list Label) (s : System) :
  StartInv ls s ->
  StartInv (ls ++ fst (run sched s)) (snd (run sched s)).
Proof.
  revert ls s. induction sched as [|t sched IH]; intros ls s Hinv; cbn.
  - rewrite app_nil_r. exact Hinv.
  - destruct (step t s) as [[l s']|] eqn:Hstep; [|apply IH, Hinv].
    specialize (IH (ls ++ [l]) s' (step_StartInv t ls l s s' Hinv Hstep)).
    destruct (run sched s') as [ls' s'']. cbn in *.
    rewrite <- app_assoc in IH. exact IH.
Qed.

Lemma StartInv_init (w : World) : StartInv [] (initSystem w).
Proof.
  split; [|split; [|split]]; cbn; try discriminate.
  intros H; contradiction.
Qed.

(** C6. In every execution of [Start], under every schedule: wherever
    the member monitor is launched, the member structure was created
    before, then the init-complete signal was sent, then [Start] received
    it, in this order and all before the launch. [Start] cannot pass the
    receive while the channel is empty, and the member heartbeat sends
    only from the state it reaches when [createInitialMemberStructure]
    returned nil. *)
Theorem memberMonitor_after_init (sched : list Thread) (w : World) :
  (forall i,
     fst (run sched (initSystem w)) !! i = Some LGoMemberMonitor ->
     receivedBefore (fst (run sched (initSystem w))) i) /\
  (forall s,
     startPC s = AtRecvInitFinished -> initFinished s = [] -> step TStart s = None) /\
  (forall s s',
     step TMemberHeartbeat s = Some (LMemberStructureCreated, s') ->
     fst (memberHeartbeatInit (world s)) = Ret Initialised /\
     memberHeartbeat s' = HbAtSend) /\
  (forall s s',
     step TMemberHeartbeat s = Some (LSendInitFinished, s') ->
     memberHeartbeat s = HbAtSend /\ initFinished s' = [true]).
Proof.
  split; [|split; [|split]].
  - pose proof (run_StartInv sched [] (initSystem w) (StartInv_init w)) as H.
    cbn in H. destruct H as (_ & _ & _ & H). exact H.
  - intros s Hpc Hch. unfold step, stepStart. rewrite Hpc, Hch.
    destruct (exited s); reflexivity.
  - intros s s' Hstep. unfold step, stepMemberHeartbeat in Hstep.
    destruct (exited s); [discriminate|].
    destruct (memberHeartbeat s); [discriminate| | |].
    + destruct (memberHeartbeatInit (world s)) as [[[msg|]|msg] w'];
        inversion Hstep; subst. split; reflexivity.
    + destruct (initFinished s); inversion Hstep.
    + unfold tick in Hstep.
      destruct (memberHeartbeatTick (world s)) as [[a|msg] w']; inversion Hstep.
  - intros s s' Hstep. unfold step, stepMemberHeartbeat in Hstep.
    destruct (exited s); [discriminate|].
    destruct (memberHeartbeat s); [discriminate| | |].
    + destruct (memberHeartbeatInit (world s)) as [[[msg|]|msg] w'];
        inversion Hstep.
    + destruct (initFinished s); inversion Hstep; subst. split; reflexivity.
    + unfold tick in Hstep.
      destruct (memberHeartbeatTick (world s)) as [[a|msg] w']; inversion Hstep.
Qed.

(** ** Further properties of the loops *)

Lemma since_same (w w' : World) : trace w' = trace w -> since w w' = [].
Proof.
  intros H. unfold since. rewrite H. apply drop_all.
Qed.

Ltac engine_unfold :=
  unfold directorMonitorTick, getState, handleState, changeState, updateState,
    isExpired, directorHeartbeatTick, sendDirectorHeartbeat, memberMonitorStep,
    memberHeartbeatTick, generateMemberJSON, refreshMemberDir;
  unfold_m.

(** Case on every answer of the store, of the codec and of the clock
    comparisons, innermost first. *)
Ltac case_answers :=
  repeat (cbn;
          match goal with
          | |- context [match ?x with _ => _ end] =>
              lazymatch x with
              | context [match _ with _ => _ end] => fail
              | _ => destruct x eqn:?
              end
          end);
  cbn.

Ltac since_tac :=
  first [ rewrite since_same by reflexivity
        | erewrite since_app by (cbn; rewrite <- ?app_assoc; reflexivity) ].

(** X1. A tick of the director monitor makes at most one call that
    writes to the store, whatever it observes and whatever the store
    answers. *)
Theorem directorMonitorTick_one_write (w : World) :
  (length (storeWrites (since w (snd (directorMonitorTick w)))) <= 1)%nat.
Proof.
  engine_unfold. case_answers; since_tac; cbn; lia.
Qed.

(** X2. No loop body hands an error to its looper: the bodies of the
    director heartbeat and of the member heartbeat return nil, and the
    body of the director monitor returns nil unless it panics. *)
Theorem ticks_return_nil (w : World) :
  fst (directorHeartbeatTick w) = Ret None /\
  fst (memberHeartbeatTick w) = Ret None /\
  (fst (directorMonitorTick w) = Ret None \/
   exists msg, fst (directorMonitorTick w) = Panic msg).
Proof.
  split; [|split].
  - engine_unfold. case_answers; reflexivity.
  - engine_unfold. case_answers; reflexivity.
  - engine_unfold. case_answers; eauto.
Qed.

(** X3. While the node is not director, an iteration of the member
    monitor sleeps for [HeartbeatInterval] and does nothing else: it does
    not ask the watcher for an event. *)
Theorem memberMonitorStep_not_director (w : World) :
  DirectorState w = false ->
  memberMonitorStep w =
    (Ret Continue,
     mkWorld false (store w) (reads w) (trace w ++ [EvSleep (HeartbeatInterval cfg)])).
Proof.
  intros Hd. unfold memberMonitorStep. unfold_m. rewrite Hd. cbn. rewrite Hd.
  reflexivity.
Qed.

(** X4. Only the director monitor writes the role flag: the director
    heartbeat, the member monitor, the member heartbeat (its
    initialisation, its tick and its refresh goroutine) leave
    [DirectorState] as it is and send nothing on [StateChan]. *)
Theorem role_flag_single_writer (w : World) :
  (DirectorState (snd (directorHeartbeatTick w)) = DirectorState w /\
   stateChanSends (since w (snd (directorHeartbeatTick w))) = []) /\
  (DirectorState (snd (memberMonitorStep w)) = DirectorState w /\
   stateChanSends (since w (snd (memberMonitorStep w))) = []) /\
  (DirectorState (snd (memberHeartbeatTick w)) = DirectorState w /\
   stateChanSends (since w (snd (memberHeartbeatTick w))) = []) /\
  (DirectorState (snd (memberHeartbeatInit w)) = DirectorState w /\
   stateChanSends (since w (snd (memberHeartbeatInit w))) = []) /\
  (forall dir ttl,
     DirectorState (snd (refreshMemberDir dir ttl w)) = DirectorState w /\
     stateChanSends (since w (snd (refreshMemberDir dir ttl w))) = []).
Proof.
  split; [|split; [|split; [|split]]].
  - engine_unfold. case_answers; (split; [congruence|since_tac; reflexivity]).
  - engine_unfold. case_answers; (split; [congruence|since_tac; reflexivity]).
  - engine_unfold. case_answers; (split; [congruence|since_tac; reflexivity]).
  - unfold memberHeartbeatInit, createInitialMemberStructure. engine_unfold.
    case_answers; (split; [congruence|since_tac; reflexivity]).
  - intros dir ttl. engine_unfold.
    case_answers; (split; [congruence|since_tac; reflexivity]).
Qed.

(** X5. Every transition of the role flag is published: after
    [handleState] either the flag is as before and nothing was sent on
    [StateChan], or exactly one value was sent and it is the value of the
    flag. *)
Theorem handleState_publishes (obs : option DirectorJSON) (w : World) :
  (DirectorState (snd (handleState obs w)) = DirectorState w /\
   stateChanSends (since w (snd (handleState obs w))) = []) \/
  stateChanSends (since w (snd (handleState obs w)))
    = [DirectorState (snd (handleState obs w))].
Proof.
  engine_unfold.
  case_answers;
    first [ left; split; [congruence|since_tac; reflexivity]
          | right; since_tac; cbn; congruence ].
Qed.

(** X6. An error of the watcher while director: "context canceled" ends
    the loop and nothing is reported; any other error is written to the
    event queue and to the health surface, sent to overwatch as
    [ETCD_WATCHER_ERROR], and the loop goes on. Nothing is sent on
    [DistributeChan] in either case. *)
Theorem memberMonitorStep_watcher_error (w : World) (resp : Response) (e : E) (s' : St) :
  DirectorState w = true ->
  WatcherNext dal (store w) = ((resp, Some e), s') ->
  (Error_text e = "context canceled" ->
   memberMonitorStep w =
     (Ret Break,
      mkWorld true s' (reads w) (trace w ++ [EvDal CallWatcherNext (Some e)]))) /\
  (Error_text e <> "context canceled" ->
   memberMonitorStep w =
     (Ret Continue,
      mkWorld true s' (reads w)
        (trace w ++
         [EvDal CallWatcherNext (Some e);
          EvEventQueue "error"
            (Identifier +:+ "-runMemberMonitor: Unexpected watcher error: "
             +:+ Error_text e);
          EvHealth false
            ("Cluster engine watcher encountering errors: " +:+ Error_text e);
          EvOverwatchChan
            (mkMessage (Errorf ("Unexpected watcher error: " +:+ Error_text e))
                       (Identifier +:+ ".runMemberMonitor")
                       ETCD_WATCHER_ERROR)]))).
Proof.
  intros Hd Hn. unfold memberMonitorStep. unfold_m. rewrite Hd. cbn. rewrite Hn. cbn.
  split.
  - intros Hc. apply String.eqb_eq in Hc. rewrite Hc. rewrite Hd. reflexivity.
  - intros Hc. apply String.eqb_neq in Hc. rewrite Hc. cbn.
    rewrite <- !app_assoc. rewrite Hd. reflexivity.
Qed.

(** X7. A tick of the member heartbeat whose record serialises: it
    writes the record to [.../status] with create-parents; if the store
    accepts, it starts one goroutine that refreshes the member directory
    with the TTL [heartbeatTimeoutInt]; if the store refuses, the error
    goes to the event queue, the health surface and overwatch
    ([ETCD_GENERIC_ERROR]) and no refresh is started. *)
Theorem memberHeartbeatTick_steady (w : World) (memberJSON : string) :
  Marshal_Member json
    (mkMemberJSON MemberID Hostname (cfgListenAddress cfg) (clock (reads w))
                  (cfgTags cfg) (cfgVersion cfg) (cfgSemVer cfg))
    = (memberJSON, None) ->
  let opts := Some (mkSetOptions false 0 "" true 1) in
  let answer := Set_ dal (memberDir +:+ "/status") memberJSON opts (store w) in
  memberHeartbeatTick w =
    (Ret None,
     mkWorld (DirectorState w) (snd answer) (S (reads w))
       (trace w ++
        EvDal (CallSet (memberDir +:+ "/status") memberJSON opts) (fst answer) ::
        match fst answer with
        | Some e =>
            [EvEventQueue "error"
               (Identifier
                +:+ "-runMemberHeartbeat: Unable to save member JSON status (retrying in "
                +:+ Duration_String json (HeartbeatInterval cfg) +:+ "): "
                +:+ Error_text e);
             EvHealth false
               ("Cluster engine encountering etcd error(s) during set: "
                +:+ Error_text e);
             EvOverwatchChan
               (mkMessage (Errorf ("Unable to save key to etcd: " +:+ Error_text e))
                          (Identifier +:+ ".runMemberHeartbeat")
                          ETCD_GENERIC_ERROR)]
        | None => [EvGo (GoRefresh memberDir heartbeatTimeoutInt)]
        end)).
Proof.
  intros Hm. cbv zeta. unfold memberHeartbeatTick, generateMemberJSON. unfold_m.
  cbn. rewrite Hm. cbn.
  destruct (Set_ dal (memberDir +:+ "/status") memberJSON _ (store w)) as [[e|] s'];
    cbn; rewrite <- ?app_assoc; reflexivity.
Qed.

(** X8. In [updateState] for UPDATE, when the new record serialises and
    the previous one does not, the error message is built from [err],
    which is nil at that point: the call panics, before any call into
    [dal]. *)
Theorem updateState_previous_unserialisable
        (prev : option DirectorJSON) (w : World) (data bad : string) (e : E) :
  Marshal_Director json (Some (mkDirectorJSON MemberID (clock (reads w)))) = (data, None) ->
  Marshal_Director json prev = (bad, Some e) ->
  updateState prev UPDATE w =
    (Panic "invalid memory address or nil pointer dereference",
     mkWorld (DirectorState w) (store w) (S (reads w)) (trace w)).
Proof.
  intros Hm Hp. unfold updateState. unfold_m. cbn. rewrite Hm. cbn. rewrite Hp.
  reflexivity.
Qed.


(** X9. The adopt branch over a whole tick: the record read from the
    store names this member and the flag is false. The tick makes two
    calls, the [Get] and one [UpdateDirectorState] whose compare-and-swap
    value is the re-serialisation of the record it parsed; that value is
    the blob read from the store when [json.Marshal] gives the blob back. *)
Theorem directorMonitorTick_adopt (w : World) (data : gmap string string) (s' : St)
        (blob prevData new : string) (d : DirectorJSON) :
  Get dal DIRECTOR_KEY (store w) = ((data, None), s') ->
  IsKeyNotFound dal None = false ->
  data !! DIRECTOR_KEY = Some blob ->
  Unmarshal_Director json blob = (d, None) ->
  dMemberID d = MemberID ->
  DirectorState w = false ->
  Marshal_Director json (Some d) = (prevData, None) ->
  Marshal_Director json (Some (mkDirectorJSON MemberID (clock (reads w)))) = (new, None) ->
  dalCalls (since w (snd (directorMonitorTick w)))
    = [CallGet DIRECTOR_KEY; CallUpdateDirectorState new prevData false] /\
  (prevData = blob ->
   dalCalls (since w (snd (directorMonitorTick w)))
     = [CallGet DIRECTOR_KEY; CallUpdateDirectorState new blob false]).
Proof.
  intros Hg Hk Hl Hu He Hd Hp Hm.
  assert (H : dalCalls (since w (snd (directorMonitorTick w)))
              = [CallGet DIRECTOR_KEY; CallUpdateDirectorState new prevData false]).
  { unfold directorMonitorTick. unfold bind at 1.
    rewrite (getState_found w data s' blob d Hg Hk Hl Hu).
    unfold bind at 1. unfold handleState.
    apply String.eqb_eq in He. rewrite He.
    unfold bind at 1. unfold amDirector. cbn -[changeState]. rewrite Hd.
    cbn -[changeState].
    rewrite (changeState_START_UPDATE (Some d) _ new prevData) by (cbn; assumption).
    cbn.
    destruct (UpdateDirectorState dal new prevData false s') as [[e|] s'']; cbn;
      since_tac; reflexivity. }
  split; [exact H|]. intros <-. exact H.
Qed.

(** ** The member monitor over a run of events *)

(** Whether an event that the watcher delivered makes the monitor send
    on [DistributeChan]. *)
Definition announces (resp : Response) : bool :=
  if String.eqb (Action resp) "set" then
    NodeDir resp && negb (String.eqb (Go.Base (NodeKey resp)) "config")
  else String.eqb (Action resp) "expire".

(** What one iteration adds to the trace for such an event. *)
Definition eventTrace (resp : Response) : list Event :=
  EvDal CallWatcherNext None ::
  (if announces resp then [EvDistributeChan true] else []).

(** The answers of [n] successive calls of [watcher.Next], and the store
    they leave. *)
Fixpoint watch (n : nat) (s : St) : list (Response * option E) * St :=
  match n with
  | O => ([], s)
  | S n' =>
      let '(a, s1) := WatcherNext dal s in
      let '(rest, s') := watch n' s1 in
      (a :: rest, s')
  end.

Lemma watch_S (n : nat) (s : St) :
  watch (S n) s =
    let '(a, s1) := WatcherNext dal s in
    let '(rest, s') := watch n s1 in
    (a :: rest, s').
Proof. reflexivity. Qed.

Lemma memberMonitorStep_delivered (w : World) (resp : Response) (s1 : St) :
  DirectorState w = true ->
  WatcherNext dal (store w) = ((resp, None), s1) ->
  memberMonitorStep w =
    (Ret Continue, mkWorld true s1 (reads w) (trace w ++ eventTrace resp)).
Proof.
  intros Hd Hn. unfold memberMonitorStep, eventTrace, announces. unfold_m.
  rewrite Hd. cbn. rewrite Hn. cbn.
  destruct (String.eqb (Action resp) "set"); cbn.
  - destruct (NodeDir resp); cbn; [|rewrite Hd; reflexivity].
    destruct (String.eqb (Go.Base (NodeKey resp)) "config"); cbn;
      rewrite <- ?app_assoc, Hd; reflexivity.
  - destruct (String.eqb (Action resp) "expire"); cbn;
      rewrite <- ?app_assoc, Hd; reflexivity.
Qed.

Lemma memberMonitorStep_sleeps (w : World) :
  DirectorState w = false ->
  memberMonitorStep w =
    (Ret Continue,
     mkWorld false (store w) (reads w) (trace w ++ [EvSleep (HeartbeatInterval cfg)])).
Proof.
  intros Hd. unfold memberMonitorStep. unfold_m. rewrite Hd. cbn. rewrite Hd.
  reflexivity.
Qed.

Lemma memberMonitorStep_cancelled (w : World) (resp : Response) (e : E) (s1 : St) :
  DirectorState w = true ->
  WatcherNext dal (store w) = ((resp, Some e), s1) ->
  Error_text e = "context canceled" ->
  memberMonitorStep w =
    (Ret Break, mkWorld true s1 (reads w) (trace w ++ [EvDal CallWatcherNext (Some e)])).
Proof.
  intros Hd Hn He. unfold memberMonitorStep. unfold_m.
  rewrite Hd. cbn. rewrite Hn. cbn. apply String.eqb_eq in He. rewrite He, Hd.
  reflexivity.
Qed.

Lemma distributeSends_app (l1 l2 : list Event) :
  distributeSends (l1 ++ l2) = distributeSends l1 ++ distributeSends l2.
Proof.
  unfold distributeSends. apply omap_app.
Qed.

Lemma distributeSends_events (resps : list Response) :
  distributeSends (concat (map eventTrace resps))
    = map (fun _ => true) (List.filter announces resps).
Proof.
  induction resps as [|r resps IH]; [reflexivity|].
  change (concat (map eventTrace (r :: resps)))
    with (eventTrace r ++ concat (map eventTrace resps)).
  rewrite distributeSends_app, IH.
  unfold eventTrace. cbn [List.filter]. destruct (announces r); reflexivity.
Qed.

Lemma dalCalls_app (l1 l2 : list Event) :
  dalCalls (l1 ++ l2) = dalCalls l1 ++ dalCalls l2.
Proof.
  unfold dalCalls. apply omap_app.
Qed.

Lemma dalCalls_events (resps : list Response) :
  dalCalls (concat (map eventTrace resps)) = repeat CallWatcherNext (length resps).
Proof.
  induction resps as [|r resps IH]; [reflexivity|].
  change (concat (map eventTrace (r :: resps)))
    with (eventTrace r ++ concat (map eventTrace resps)).
  rewrite dalCalls_app, IH.
  unfold eventTrace. destruct (announces r); reflexivity.
Qed.

Lemma memberMonitorLoop_run (resps : list Response) :
  forall (w : World) (last : Response) (e : E) (s' : St) (fuel : nat),
    DirectorState w = true ->
    watch (S (length resps)) (store w)
      = (map (fun r => (r, None)) resps ++ [(last, Some e)], s') ->
    Error_text e = "context canceled" ->
    (length resps < fuel)%nat ->
    memberMonitorLoop fuel w =
      (Ret true,
       mkWorld true s' (reads w)
         (trace w ++ concat (map eventTrace resps)
          ++ [EvDal CallWatcherNext (Some e)])).
Proof.
  induction resps as [|r resps IH]; intros w last e s' fuel Hd Hw He Hf.
  - destruct fuel as [|fuel]; [cbn in Hf; lia|].
    cbn in Hw. destruct (WatcherNext dal (store w)) as [a s1] eqn:Hn.
    inversion Hw; subst. cbn [memberMonitorLoop]. unfold bind.
    rewrite (memberMonitorStep_cancelled w last e s' Hd Hn He). reflexivity.
  - destruct fuel as [|fuel]; [cbn in Hf; lia|].
    cbn [length] in Hw. rewrite watch_S in Hw.
    destruct (WatcherNext dal (store w)) as [a s1] eqn:Hn.
    destruct (watch (S (length resps)) s1) as [rest s2] eqn:Hrest.
    cbn in Hw. inversion Hw; subst. cbn [memberMonitorLoop]. unfold bind.
    rewrite (memberMonitorStep_delivered w r s1 Hd Hn).
    rewrite (IH (mkWorld true s1 (reads w) (trace w ++ eventTrace r)) last e s' fuel);
      [|reflexivity|exact Hrest|exact He|cbn in Hf; lia].
    cbn. rewrite <- !app_assoc. reflexivity.
Qed.

(** X11. The loop of the member monitor, on a node that is director,
    when the watcher delivers the events [resps] and is then cancelled:
    the loop ends after having asked the watcher once per event and once
    more, and it has sent on [DistributeChan] one [true] for each event
    that is a "set" on a directory whose base name is not "config" or an
    "expire", and nothing else. *)
Theorem memberMonitorLoop_events (w : World) (resps : list Response)
        (last : Response) (e : E) (s' : St) (fuel : nat) :
  DirectorState w = true ->
  watch (S (length resps)) (store w)
    = (map (fun r => (r, None)) resps ++ [(last, Some e)], s') ->
  Error_text e = "context canceled" ->
  (length resps < fuel)%nat ->
  fst (memberMonitorLoop fuel w) = Ret true /\
  dalCalls (since w (snd (memberMonitorLoop fuel w)))
    = repeat CallWatcherNext (S (length resps)) /\
  distributeSends (since w (snd (memberMonitorLoop fuel w)))
    = map (fun _ => true) (List.filter announces resps).
Proof.
  intros Hd Hw He Hf.
  rewrite (memberMonitorLoop_run resps w last e s' fuel Hd Hw He Hf). cbn.
  rewrite (since_app w _ (concat (map eventTrace resps)
                          ++ [EvDal CallWatcherNext (Some e)])) by reflexivity.
  split; [reflexivity|]. split.
  - rewrite dalCalls_app, dalCalls_events. cbn [repeat].
    rewrite repeat_cons. reflexivity.
  - rewrite distributeSends_app, distributeSends_events. cbn.
    apply app_nil_r.
Qed.

(** X12. The loop of the member monitor on a node that is not director
    and does not become one: however many iterations it runs, it does not
    end and it only sleeps. It never asks the watcher, so a cancelled
    context is not seen either. *)
Theorem memberMonitorLoop_not_director (fuel : nat) (w : World) :
  DirectorState w = false ->
  memberMonitorLoop fuel w =
    (Ret false,
     mkWorld false (store w) (reads w)
       (trace w ++ repeat (EvSleep (HeartbeatInterval cfg)) fuel)).
Proof.
  revert w. induction fuel as [|fuel IH]; intros w Hd.
  - cbn. rewrite app_nil_r. destruct w; cbn in *; subst; reflexivity.
  - cbn [memberMonitorLoop]. unfold bind.
    rewrite (memberMonitorStep_sleeps w Hd).
    rewrite IH by reflexivity. cbn. rewrite <- app_assoc. reflexivity.
Qed.

(** ** Keys of member directories *)

(** A name with no slash in it. *)
Definition noSlash (name : string) : bool :=
  forallb (fun c => negb (Ascii.eqb c Go.slash)) (list_ascii_of_string name).

Lemma list_ascii_of_append (a b : string) :
  list_ascii_of_string (a +:+ b) = list_ascii_of_string a ++ list_ascii_of_string b.
Proof.
  induction a as [|c a IH]; [reflexivity|]. cbn. rewrite <- IH. reflexivity.
Qed.

Lemma untilSlash_app (l rest : list ascii) :
  forallb (fun c => negb (Ascii.eqb c Go.slash)) l = true ->
  Go.untilSlash (l ++ Go.slash :: rest) = l.
Proof.
  induction l as [|c l IH]; intros H; cbn.
  - reflexivity.
  - cbn in H. apply andb_prop in H. destruct H as [Hc Hl].
    apply negb_true_iff in Hc. rewrite Hc, IH by exact Hl. reflexivity.
Qed.

Lemma dropSlashes_keep (l rest : list ascii) :
  l <> [] ->
  forallb (fun c => negb (Ascii.eqb c Go.slash)) l = true ->
  Go.dropSlashes (l ++ rest) = l ++ rest.
Proof.
  intros Hne H. destruct l as [|c l]; [contradiction|].
  cbn in *. apply andb_prop in H. destruct H as [Hc _].
  apply negb_true_iff in Hc. rewrite Hc. reflexivity.
Qed.

Lemma forallb_rev {A} (f : A -> bool) (l : list A) :
  forallb f (rev l) = forallb f l.
Proof.
  induction l as [|a l IH]; [reflexivity|].
  cbn. rewrite forallb_app, IH. cbn. rewrite andb_true_r. apply andb_comm.
Qed.

Lemma Base_join (dir name : string) :
  name <> "" ->
  noSlash name = true ->
  Go.Base (dir +:+ "/" +:+ name) = name.
Proof.
  intros Hne Hns. unfold Go.Base.
  assert (Hnonempty : String.eqb (dir +:+ "/" +:+ name) "" = false).
  { destruct dir; reflexivity. }
  rewrite Hnonempty. rewrite !list_ascii_of_append.
  change (list_ascii_of_string "/") with [Go.slash].
  rewrite !rev_app_distr. cbn [rev app]. rewrite <- app_assoc. cbn [app].
  assert (Hl : list_ascii_of_string name <> []).
  { destruct name; [contradiction|discriminate]. }
  assert (Hr : rev (list_ascii_of_string name) <> []).
  { intros H. apply Hl. apply (f_equal (@rev ascii)) in H.
    rewrite rev_involutive in H. exact H. }
  unfold noSlash in Hns. rewrite <- forallb_rev in Hns.
  rewrite dropSlashes_keep by assumption.
  rewrite untilSlash_app by assumption.
  rewrite rev_involutive.
  destruct (list_ascii_of_string name) as [|c l] eqn:Hn; [contradiction|].
  rewrite <- Hn. apply string_of_list_ascii_of_string.
Qed.

(** X13. A "set" event on a directory whose key ends in a slash and a
    name (not empty, without slash): the member monitor, as director,
    sends [true] on [DistributeChan] unless the name is "config". So the
    creation of any [.../config] directory is passed over, and so would be
    the directory of a member whose id is "config". *)
Theorem memberMonitorStep_member_key (w : World) (dir name : string) (s' : St) :
  DirectorState w = true ->
  name <> "" ->
  noSlash name = true ->
  WatcherNext dal (store w) = ((mkResponse "set" (dir +:+ "/" +:+ name) true, None), s') ->
  distributeSends (since w (snd (memberMonitorStep w)))
    = if String.eqb name "config" then [] else [true].
Proof.
  intros Hd Hne Hns Hn.
  rewrite (memberMonitorStep_delivered w _ s' Hd Hn). cbn [snd].
  rewrite (since_app w _ (eventTrace (mkResponse "set" (dir +:+ "/" +:+ name) true)))
    by reflexivity.
  unfold eventTrace, announces. cbn [Action NodeDir NodeKey].
  rewrite (Base_join dir name Hne Hns). cbn.
  destruct (String.eqb name "config"); reflexivity.
Qed.

(** ** Failed observations and rare actions *)

(** X14. A tick of the director monitor whose observation fails (the
    store answers [Get] with an error other than key-not-found, or the map
    has no entry for the director key, or the entry does not parse): the
    tick returns nil, having made the [Get] and added one entry to the
    event queue; [handleState] is not run, so the flag, the clock and
    [StateChan] are untouched and nothing is written. *)
Theorem directorMonitorTick_observation_failure (w : World) :
  let data := fst (fst (Get dal DIRECTOR_KEY (store w))) in
  let err := snd (fst (Get dal DIRECTOR_KEY (store w))) in
  let s' := snd (Get dal DIRECTOR_KEY (store w)) in
  IsKeyNotFound dal err = false ->
  err <> None \/
  data !! DIRECTOR_KEY = None \/
  (exists blob, data !! DIRECTOR_KEY = Some blob /\
                snd (Unmarshal_Director json blob) <> None) ->
  exists msg,
    directorMonitorTick w =
      (Ret None,
       mkWorld (DirectorState w) s' (reads w)
         (trace w ++
          [EvDal (CallGet DIRECTOR_KEY) err;
           EvEventQueue "error"
             (Identifier +:+ "-directorMonitor: Unable to fetch director state: "
              +:+ msg)])).
Proof.
  cbv zeta. unfold directorMonitorTick, getState. unfold_m.
  destruct (Get dal DIRECTOR_KEY (store w)) as [[data err] s']. cbn.
  intros Hk Hcase. rewrite Hk.
  destruct err as [e|]; cbn.
  { eexists. rewrite <- app_assoc. reflexivity. }
  destruct Hcase as [H|[H|(blob & Hb & Hu)]]; [contradiction| |].
  - rewrite H. cbn. eexists. rewrite <- app_assoc. reflexivity.
  - rewrite Hb. destruct (Unmarshal_Director json blob) as [d [e|]]; cbn in *;
      [|contradiction].
    eexists. rewrite <- app_assoc. reflexivity.
Qed.

(** X15. An absent director record on a node that is already director:
    [handleState] creates the record again and, when the store accepts,
    sends [true] on [StateChan] although the flag was true before. *)
Theorem handleState_absent_while_director (w : World) (data : string) (s' : St) :
  DirectorState w = true ->
  Marshal_Director json (Some (mkDirectorJSON MemberID (clock (reads w)))) = (data, None) ->
  CreateDirectorState dal data (store w) = (None, s') ->
  handleState None w =
    (Ret None,
     mkWorld true s' (S (reads w))
       (trace w ++ [EvDal (CallCreateDirectorState data) None; EvStateChan true])).
Proof.
  intros Hd Hm Hc. unfold handleState.
  rewrite (changeState_START_CREATE None w data Hm), Hc. reflexivity.
Qed.

(** X16. The two integer arguments of [changeState] outside their named
    values. Every [action] other than START is carried out as STOP,
    whatever the etcd action. A START with an etcd action that is none of
    CREATE, UPDATE, NOOP returns the error of [updateState] ("Unrecognized
    etcdAction"), and nothing has happened: no clock reading, no call, no
    send, the flag as before. *)
Theorem changeState_other_actions (prev : option DirectorJSON) (w : World) :
  (forall action etcdAction,
     action <> START ->
     changeState action prev etcdAction w =
       (Ret None,
        mkWorld false (store w) (reads w) (trace w ++ [EvStateChan false]))) /\
  (forall etcdAction,
     etcdAction <> CREATE -> etcdAction <> UPDATE -> etcdAction <> NOOP ->
     changeState START prev etcdAction w =
       (Ret (Some (Errorf ("Unable to update director state: "
                           +:+ "Unrecognized etcdAction '" +:+ pretty etcdAction
                           +:+ "' (bug?)"))),
        w)).
Proof.
  split.
  - intros action etcdAction Ha. apply Z.eqb_neq in Ha.
    unfold changeState. rewrite Ha. reflexivity.
  - intros etcdAction Hc Hu Hn.
    apply Z.eqb_neq in Hc, Hu, Hn.
    unfold changeState, updateState. unfold_m. cbn.
    rewrite Hn, Hc, Hu. cbn. reflexivity.
Qed.

(** X17. The refresh goroutine: it makes one [Refresh] call on the
    directory it was given, with the TTL [heartbeatTimeoutInt] of the
    enclosing function (its own [ttl] parameter is not used). An error
    goes to the event queue, to the health surface and to overwatch as
    [ETCD_GENERIC_ERROR]; the member is not dropped and nothing is
    retried before the next tick. *)
Theorem refreshMemberDir_reports (dir : string) (ttl : Z) (w : World) :
  let answer := Refresh dal dir heartbeatTimeoutInt (store w) in
  refreshMemberDir dir ttl w =
    (Ret tt,
     mkWorld (DirectorState w) (snd answer) (reads w)
       (trace w ++
        EvDal (CallRefresh dir heartbeatTimeoutInt) (fst answer) ::
        match fst answer with
        | Some e =>
            [EvEventQueue "error"
               (Identifier +:+ "-runMemberHeartbeat: Unable to refresh member dir '"
                +:+ dir +:+ "' (retrying in "
                +:+ Duration_String json (HeartbeatInterval cfg) +:+ "): "
                +:+ Error_text e);
             EvHealth false
               ("Cluster engine encountering etcd error(s) during refresh: "
                +:+ Error_text e);
             EvOverwatchChan
               (mkMessage (Errorf ("Unable to refresh key in etcd: " +:+ Error_text e))
                          (Identifier +:+ ".runMemberHeartbeat")
                          ETCD_GENERIC_ERROR)]
        | None => []
        end)).
Proof.
  cbv zeta. unfold refreshMemberDir. unfold_m.
  destruct (Refresh dal dir heartbeatTimeoutInt (store w)) as [[e|] s']; cbn;
    rewrite <- ?app_assoc; reflexivity.
Qed.

(** X18. Cold start, two ticks of the director monitor. The first finds
    no director key and the store accepts the record it creates; the
    second reads that record back (it decodes to this member's id). Then
    the first tick made the node director and sent [true], and the second
    does nothing but its [Get]: no write, no send, no clock reading. *)
Theorem directorMonitor_cold_start_then_steady
        (w : World) (m0 m1 : gmap string string) (err0 : option E)
        (s0 s1 s2 : St) (data : string) (d : DirectorJSON) :
  Get dal DIRECTOR_KEY (store w) = ((m0, err0), s0) ->
  IsKeyNotFound dal err0 = true ->
  Marshal_Director json (Some (mkDirectorJSON MemberID (clock (reads w)))) = (data, None) ->
  CreateDirectorState dal data s0 = (None, s1) ->
  Get dal DIRECTOR_KEY s1 = ((m1, None), s2) ->
  IsKeyNotFound dal None = false ->
  m1 !! DIRECTOR_KEY = Some data ->
  Unmarshal_Director json data = (d, None) ->
  dMemberID d = MemberID ->
  let w1 :=
    mkWorld true s1 (S (reads w))
      (trace w ++ [EvDal (CallGet DIRECTOR_KEY) err0;
                   EvDal (CallCreateDirectorState data) None;
                   EvStateChan true]) in
  directorMonitorTick w = (Ret None, w1) /\
  directorMonitorTick w1 =
    (Ret None,
     mkWorld true s2 (S (reads w)) (trace w1 ++ [EvDal (CallGet DIRECTOR_KEY) None])).
Proof.
  intros Hg0 Hk0 Hm Hc Hg1 Hk1 Hl Hu He. cbv zeta. split.
  - unfold directorMonitorTick, getState, handleState, changeState, updateState.
    unfold_m. rewrite Hg0. cbn. rewrite Hk0. cbn. rewrite Hm. cbn. rewrite Hc. cbn.
    rewrite <- !app_assoc. reflexivity.
  - unfold directorMonitorTick. unfold bind at 1.
    rewrite (getState_found _ m1 s2 data d) by (cbn; assumption).
    unfold bind at 1. unfold handleState.
    apply String.eqb_eq in He. rewrite He. unfold_m. cbn. reflexivity.
Qed.

(** ** Start: what has happened when it returns, and what ends the process *)

(** The launches [Start] has made when it stands at a statement. *)
Definition launchesDone (pc : StartPC) : list Label :=
  match pc with
  | AtGoDirectorMonitor => []
  | AtGoDirectorHeartbeat => [LGoDirectorMonitor]
  | AtGoMemberHeartbeat => [LGoDirectorMonitor; LGoDirectorHeartbeat]
  | AtRecvInitFinished | AtGoMemberMonitor =>
      [LGoDirectorMonitor; LGoDirectorHeartbeat; LGoMemberHeartbeat]
  | AtReturn | Returned =>
      [LGoDirectorMonitor; LGoDirectorHeartbeat; LGoMemberHeartbeat;
       LGoMemberMonitor]
  end.

Definition LaunchInv (ls : list Label) (s : System) : Prop :=
  launchesDone (startPC s) `sublist_of` ls /\
  (forall i, ls !! i = Some LStartReturned ->
             launchesDone Returned `sublist_of` take i ls).

(** Labels that end the process. *)
Definition endsProcess (l : Label) : bool :=
  match l with
  | LFatal _ | LPanic _ => true
  | _ => false
  end.

Lemma LaunchInv_returned_old (ls : list Label) (l : Label) :
  l <> LStartReturned ->
  (forall i, ls !! i = Some LStartReturned ->
             launchesDone Returned `sublist_of` take i ls) ->
  forall i, (ls ++ [l]) !! i = Some LStartReturned ->
            launchesDone Returned `sublist_of` take i (ls ++ [l]).
Proof.
  intros Hl H i Hi.
  apply lookup_app_Some in Hi. destruct Hi as [Hi|[_ Hi]].
  - rewrite take_app_le by (apply lookup_lt_Some in Hi; lia). apply H, Hi.
  - destruct (i - length ls)%nat; cbn in Hi; [congruence|discriminate].
Qed.

Lemma LaunchInv_frame (ls : list Label) (l : Label) (s s' : System) :
  LaunchInv ls s ->
  startPC s' = startPC s ->
  l <> LStartReturned ->
  LaunchInv (ls ++ [l]) s'.
Proof.
  intros [H1 H2] Hpc Hl. split.
  - rewrite Hpc. apply sublist_inserts_r, H1.
  - apply LaunchInv_returned_old; assumption.
Qed.

Lemma LaunchInv_tick {A} (t : Thread) (body : M A) (ls : list Label) (l : Label)
      (s s' : System) :
  tick t body s = (l, s') ->
  LaunchInv ls s ->
  LaunchInv (ls ++ [l]) s'.
Proof.
  intros Ht H. unfold tick in Ht.
  destruct (body (world s)) as [[a|msg] w']; inversion Ht; subst;
    apply (LaunchInv_frame ls _ s); auto; discriminate.
Qed.

Lemma step_LaunchInv (t : Thread) (ls : list Label) (l : Label) (s s' : System) :
  LaunchInv ls s ->
  step t s = Some (l, s') ->
  LaunchInv (ls ++ [l]) s'.
Proof.
  intros Hinv Hstep. unfold step in Hstep.
  destruct (exited s); [discriminate|].
  destruct t.
  - unfold stepStart in Hstep. destruct Hinv as [H1 H2].
    destruct (startPC s) eqn:Hpc.
    + inversion Hstep; subst. split; cbn.
      * apply (sublist_app [] ls [LGoDirectorMonitor] [LGoDirectorMonitor]);
          [apply sublist_nil_l|reflexivity].
      * apply LaunchInv_returned_old; [discriminate|exact H2].
    + inversion Hstep; subst. split; cbn.
      * apply (sublist_app [LGoDirectorMonitor] ls
                 [LGoDirectorHeartbeat] [LGoDirectorHeartbeat]);
          [exact H1|reflexivity].
      * apply LaunchInv_returned_old; [discriminate|exact H2].
    + inversion Hstep; subst. split; cbn.
      * apply (sublist_app [LGoDirectorMonitor; LGoDirectorHeartbeat] ls
                 [LGoMemberHeartbeat] [LGoMemberHeartbeat]);
          [exact H1|reflexivity].
      * apply LaunchInv_returned_old; [discriminate|exact H2].
    + destruct (initFinished s); [discriminate|].
      inversion Hstep; subst. split; cbn.
      * apply sublist_inserts_r, H1.
      * apply LaunchInv_returned_old; [discriminate|exact H2].
    + inversion Hstep; subst. split; cbn.
      * apply (sublist_app
                 [LGoDirectorMonitor; LGoDirectorHeartbeat; LGoMemberHeartbeat] ls
                 [LGoMemberMonitor] [LGoMemberMonitor]);
          [exact H1|reflexivity].
      * apply LaunchInv_returned_old; [discriminate|exact H2].
    + inversion Hstep; subst. split; cbn.
      * apply sublist_inserts_r, H1.
      * intros i Hi. apply lookup_app_Some in Hi. destruct Hi as [Hi|[Hge Hi]].
        -- rewrite take_app_le by (apply lookup_lt_Some in Hi; lia). apply H2, Hi.
        -- destruct (i - length ls)%nat eqn:Hz; cbn in Hi; [|discriminate].
           assert (i = length ls) by lia. subst i.
           rewrite take_app_length. exact H1.
    + discriminate.
  - destruct (directorMonitor s); [|discriminate].
    inversion Hstep as [Ht]. apply (LaunchInv_tick _ _ _ _ _ _ Ht Hinv).
  - destruct (directorHeartbeat s); [|discriminate].
    inversion Hstep as [Ht]. apply (LaunchInv_tick _ _ _ _ _ _ Ht Hinv).
  - unfold stepMemberHeartbeat in Hstep.
    destruct (memberHeartbeat s); [discriminate| | |].
    + destruct (memberHeartbeatInit (world s)) as [[[msg|]|msg] w'];
        inversion Hstep; subst; apply (LaunchInv_frame ls _ s); auto; discriminate.
    + destruct (initFinished s); [|discriminate].
      inversion Hstep; subst. apply (LaunchInv_frame ls _ s); auto; discriminate.
    + inversion Hstep as [Ht]. apply (LaunchInv_tick _ _ _ _ _ _ Ht Hinv).
  - unfold stepMemberMonitor in Hstep.
    destruct (memberMonitor s); [discriminate| | |discriminate].
    + destruct (newMemberWatcher (world s)) as [r w'].
      inversion Hstep; subst. apply (LaunchInv_frame ls _ s); auto; discriminate.
    + destruct (memberMonitorStep (world s)) as [[[|]|msg] w'];
        inversion Hstep; subst; apply (LaunchInv_frame ls _ s); auto; discriminate.
  - unfold stepRefresh in Hstep.
    destruct (goroutines (trace (world s)) !! refreshed s) as [g|]; [|discriminate].
    unfold tick in Hstep.
    destruct (runGoroutine g (world s)) as [[a|msg] w'];
      inversion Hstep; subst; apply (LaunchInv_frame ls _ s); auto; discriminate.
Qed.

Lemma run_LaunchInv (sched : list Thread) (ls : list Label) (s : System) :
  LaunchInv ls s ->
  LaunchInv (ls ++ fst (run sched s)) (snd (run sched s)).
Proof.
  revert ls s. induction sched as [|t sched IH]; intros ls s Hinv; cbn.
  - rewrite app_nil_r. exact Hinv.
  - destruct (step t s) as [[l s']|] eqn:Hstep; [|apply IH, Hinv].
    specialize (IH (ls ++ [l]) s' (step_LaunchInv t ls l s s' Hinv Hstep)).
    destruct (run sched s') as [ls' s'']. cbn in *.
    rewrite <- app_assoc in IH. exact IH.
Qed.

(** X19. Under every schedule, when [Start] returns the four loops have
    been launched, in the order director monitor, director heartbeat,
    member heartbeat, member monitor, and (so) the member structure was
    created and the init-complete signal received before. *)
Theorem start_returns_after_launches (sched : list Thread) (w : World) (i : nat) :
  fst (run sched (initSystem w)) !! i = Some LStartReturned ->
  [LGoDirectorMonitor; LGoDirectorHeartbeat; LGoMemberHeartbeat; LGoMemberMonitor]
    `sublist_of` take i (fst (run sched (initSystem w))) /\
  exists j, (j < i)%nat /\
    fst (run sched (initSystem w)) !! j = Some LGoMemberMonitor /\
    receivedBefore (fst (run sched (initSystem w))) j.
Proof.
  intros Hi.
  assert (H0 : LaunchInv [] (initSystem w)).
  { split; cbn; [apply sublist_nil_l|]. intros k Hk. discriminate. }
  pose proof (run_LaunchInv sched [] (initSystem w) H0) as [_ Hret]. cbn in Hret.
  pose proof (Hret i Hi) as Hsub. split; [exact Hsub|].
  assert (Hin : LGoMemberMonitor ∈ take i (fst (run sched (initSystem w)))).
  { eapply sublist_submseteq in Hsub.
    eapply elem_of_submseteq; [|exact Hsub]. set_solver. }
  apply list_elem_of_lookup in Hin. destruct Hin as [j Hj].
  assert (Hlt : (j < i)%nat).
  { apply lookup_lt_Some in Hj. rewrite length_take in Hj. lia. }
  rewrite lookup_take_lt in Hj by exact Hlt.
  exists j. split; [exact Hlt|]. split; [exact Hj|].
  pose proof (run_StartInv sched [] (initSystem w) (StartInv_init w)) as H.
  cbn in H. destruct H as (_ & _ & _ & H). apply H, Hj.
Qed.

Lemma step_exited (t : Thread) (l : Label) (s s' : System) :
  step t s = Some (l, s') -> exited s' = endsProcess l.
Proof.
  intros Hstep. unfold step in Hstep.
  destruct (exited s) eqn:Hex; [discriminate|].
  assert (Htick : forall A (b : M A) t0, exited (snd (tick t0 b s)) = endsProcess (fst (tick t0 b s))).
  { intros A b t0. unfold tick. destruct (b (world s)) as [[a|msg] w']; cbn;
      [exact Hex|reflexivity]. }
  destruct t.
  - unfold stepStart in Hstep.
    destruct (startPC s); try destruct (initFinished s);
      inversion Hstep; subst; cbn; exact Hex.
  - destruct (directorMonitor s); inversion Hstep as [Ht].
    pose proof (Htick _ directorMonitorTick TDirectorMonitor) as H.
    rewrite Ht in H. exact H.
  - destruct (directorHeartbeat s); inversion Hstep as [Ht].
    pose proof (Htick _ directorHeartbeatTick TDirectorHeartbeat) as H.
    rewrite Ht in H. exact H.
  - unfold stepMemberHeartbeat in Hstep.
    destruct (memberHeartbeat s); [discriminate| | |].
    + destruct (memberHeartbeatInit (world s)) as [[[msg|]|msg] w'];
        inversion Hstep; subst; cbn; first [exact Hex|reflexivity].
    + destruct (initFinished s); inversion Hstep; subst; cbn; exact Hex.
    + inversion Hstep as [Ht].
      pose proof (Htick _ memberHeartbeatTick TMemberHeartbeat) as H.
      rewrite Ht in H. exact H.
  - unfold stepMemberMonitor in Hstep.
    destruct (memberMonitor s); [discriminate| | |discriminate].
    + destruct (newMemberWatcher (world s)) as [r w'].
      inversion Hstep; subst; cbn; exact Hex.
    + destruct (memberMonitorStep (world s)) as [[[|]|msg] w'];
        inversion Hstep; subst; cbn; first [exact Hex|reflexivity].
  - unfold stepRefresh in Hstep.
    destruct (goroutines (trace (world s)) !! refreshed s) as [g|]; [|discriminate].
    pose proof (Htick _ (runGoroutine g) TRefresh) as H.
    destruct (tick TRefresh (runGoroutine g) s) as [l0 s0].
    inversion Hstep; subst. cbn in *. exact H.
Qed.

Lemma run_exited (sched : list Thread) (s : System) :
  exited s = true -> run sched s = ([], s).
Proof.
  intros Hex. induction sched as [|t sched IH]; [reflexivity|].
  cbn. unfold step. rewrite Hex. exact IH.
Qed.

(** The scheduler gives [log.Fatalf] and a panic the meaning they have in
    Go: under every schedule and from every state such a label is the
    last one, no goroutine moves after it. *)
Lemma exit_is_last (sched : list Thread) (s : System) (i : nat) (l : Label) :
  fst (run sched s) !! i = Some l ->
  endsProcess l = true ->
  S i = length (fst (run sched s)).
Proof.
  revert s i. induction sched as [|t sched IH]; intros s i Hi Hl; [discriminate|].
  cbn in *. destruct (step t s) as [[l0 s']|] eqn:Hstep; [|apply IH; assumption].
  destruct (run sched s') as [ls s''] eqn:Hrun. cbn in *.
  destruct i as [|i].
  - cbn in Hi. inversion Hi; subst l0.
    pose proof (step_exited t l s s' Hstep) as Hex. rewrite Hl in Hex.
    rewrite (run_exited sched s' Hex) in Hrun. inversion Hrun. reflexivity.
  - cbn in Hi. f_equal.
    specialize (IH s' i). rewrite Hrun in IH. cbn in IH. apply IH; assumption.
Qed.

End Engine.

Arguments Ret {A} a.
Arguments Panic {A} msg.
Arguments Error {E} Error_text err.
Arguments getState {E} Error_text {St} dal json _.
Arguments handleState {E} Error_text {St} dal json clock cfg directorJSON _.
Arguments changeState {E} Error_text {St} dal json clock cfg action prevDirectorJSON etcdAction _.
Arguments updateState {E} Error_text {St} dal json clock cfg prevDirectorJSON etcdAction _.
Arguments directorMonitorTick {E} Error_text {St} dal json clock cfg _.
Arguments directorHeartbeatTick {E} Error_text {St} dal json clock cfg _.
Arguments memberMonitorStep {E} Error_text {St} dal cfg _.
Arguments memberHeartbeatInit {E} Error_text {St} dal json clock Hostname cfg _.
Arguments memberHeartbeatTick {E} Error_text {St} dal json clock Hostname cfg _.
Arguments refreshMemberDir {E} Error_text {St} dal json cfg memberDir ttl _.
Arguments since {E St} w w'.
Arguments dalCalls {E} evs.
Arguments directorWrites {E} evs.
Arguments storeWrites {E} evs.
Arguments stateChanSends {E} evs.
Arguments distributeSends {E} evs.
Arguments goroutines {E} evs.
Arguments initSystem {E St} w.
Arguments run {E} Error_text {St} dal json clock Hostname cfg sched s.
Arguments step {E} Error_text {St} dal json clock Hostname cfg t s.
Arguments world {E St} s.

(** * The engine on the in-memory store *)


(** C2 at one input: A believes it is director, the store names B. *)
Lemma stop_no_store_write_witness :
  handleState Mem.text Mem.dal Mem.codec Mem.clock Mem.cfgA
    (Some (mkDirectorJSON "B" 999000000000))
    (Mem.world true (Mem.directorStore "999000000000;B"))
  = (Ret None,
     mkWorld false (Mem.directorStore "999000000000;B") 0 [EvStateChan false]) /\
  directorMonitorTick Mem.text Mem.dal Mem.codec Mem.clock Mem.cfgA
    (Mem.world true (Mem.directorStore "999000000000;B"))
  = (Ret None,
     mkWorld false (Mem.directorStore "999000000000;B") 0
             [EvDal (CallGet DIRECTOR_KEY) None; EvStateChan false]).
Proof.
  destruct (stop_no_store_write Mem.Err Mem.text Mem.Store Mem.dal Mem.codec
              Mem.clock Mem.cfgA (mkDirectorJSON "B" 999000000000)
              (Mem.world true (Mem.directorStore "999000000000;B")))
    as [H1 H2]; [vm_compute; discriminate|reflexivity|].
  split; [exact H1|].
  destruct (H2 {[ DIRECTOR_KEY := "999000000000;B" ]}
               (Mem.directorStore "999000000000;B") "999000000000;B")
    as [Ht _]; [reflexivity|reflexivity|reflexivity|reflexivity|exact Ht].
Defined.

(** C3, the claim at a store in which the director key is a directory:
    [Get] succeeds, the map has no entry for the key, and [getState]
    returns an error, not the absent observation. *)
Lemma getState_missing_entry_counterexample :
  snd (fst (Get Mem.dal DIRECTOR_KEY Mem.directorDirStore)) = None /\
  fst (fst (Get Mem.dal DIRECTOR_KEY Mem.directorDirStore)) !! DIRECTOR_KEY = None /\
  fst (getState Mem.text Mem.dal Mem.codec (Mem.world false Mem.directorDirStore))
    = Ret (None, Some (Errorf "Uhh, no 'director' entry in map? Seems like a bug")) /\
  fst (getState Mem.text Mem.dal Mem.codec (Mem.world false Mem.directorDirStore))
    <> Ret (None, None).
Proof.
  split; [reflexivity|]. split; [reflexivity|]. split; [reflexivity|].
  vm_compute. discriminate.
Defined.

(** C3 at two inputs: an empty store (key not found) and the store of
    the counterexample. *)
Lemma getState_missing_value_witness :
  getState Mem.text Mem.dal Mem.codec (Mem.world false Mem.emptyStore)
    = (Ret (None, None),
       mkWorld false Mem.emptyStore 0
               [EvDal (CallGet DIRECTOR_KEY) (Some Mem.KeyNotFound)]) /\
  getState Mem.text Mem.dal Mem.codec (Mem.world false Mem.directorDirStore)
    = (Ret (None, Some (Errorf "Uhh, no 'director' entry in map? Seems like a bug")),
       mkWorld false Mem.directorDirStore 0 [EvDal (CallGet DIRECTOR_KEY) None]).
Proof.
  split.
  - apply (proj1 (getState_missing_value Mem.Err Mem.text Mem.Store Mem.dal Mem.codec
                    (Mem.world false Mem.emptyStore))).
    reflexivity.
  - apply (proj2 (getState_missing_value Mem.Err Mem.text Mem.Store Mem.dal Mem.codec
                    (Mem.world false Mem.directorDirStore))); reflexivity.
Defined.

(** C4 at three events: a new member directory is signalled; a write to
    a member's status key and the creation of its config directory are
    not. *)
Lemma memberMonitorStep_event_witness :
  distributeSends
    (since (Mem.world true
              (Mem.watchStore [(mkResponse "set" "/9volt/cluster/members/B" true, None)]))
       (snd (memberMonitorStep Mem.text Mem.dal Mem.cfgA
               (Mem.world true
                  (Mem.watchStore
                     [(mkResponse "set" "/9volt/cluster/members/B" true, None)])))))
    = [true] /\
  distributeSends
    (since (Mem.world true
              (Mem.watchStore
                 [(mkResponse "set" "/9volt/cluster/members/B/status" false, None)]))
       (snd (memberMonitorStep Mem.text Mem.dal Mem.cfgA
               (Mem.world true
                  (Mem.watchStore
                     [(mkResponse "set" "/9volt/cluster/members/B/status" false,
                       None)])))))
    = [] /\
  distributeSends
    (since (Mem.world true
              (Mem.watchStore
                 [(mkResponse "set" "/9volt/cluster/members/B/config" true, None)]))
       (snd (memberMonitorStep Mem.text Mem.dal Mem.cfgA
               (Mem.world true
                  (Mem.watchStore
                     [(mkResponse "set" "/9volt/cluster/members/B/config" true,
                       None)])))))
    = [].
Proof.
  split; [|split].
  - destruct (memberMonitorStep_event Mem.Err Mem.text Mem.Store Mem.dal Mem.cfgA
             (Mem.world true
                (Mem.watchStore [(mkResponse "set" "/9volt/cluster/members/B" true, None)]))
             (mkResponse "set" "/9volt/cluster/members/B" true)
             (Mem.watchStore []) eq_refl eq_refl) as (_ & Hset & _).
    apply (proj1 (Hset eq_refl)).
    split; [reflexivity|]. vm_compute. discriminate.
  - destruct (memberMonitorStep_event Mem.Err Mem.text Mem.Store Mem.dal Mem.cfgA
             (Mem.world true
                (Mem.watchStore
                   [(mkResponse "set" "/9volt/cluster/members/B/status" false, None)]))
             (mkResponse "set" "/9volt/cluster/members/B/status" false)
             (Mem.watchStore []) eq_refl eq_refl) as (_ & Hset & _).
    apply (proj2 (Hset eq_refl)). left. reflexivity.
  - destruct (memberMonitorStep_event Mem.Err Mem.text Mem.Store Mem.dal Mem.cfgA
             (Mem.world true
                (Mem.watchStore
                   [(mkResponse "set" "/9volt/cluster/members/B/config" true, None)]))
             (mkResponse "set" "/9volt/cluster/members/B/config" true)
             (Mem.watchStore []) eq_refl eq_refl) as (_ & Hset & _).
    apply (proj2 (Hset eq_refl)). right. reflexivity.
Defined.


(** C6 at one schedule: [Start] runs up to the receive, the member
    heartbeat initialises and signals, [Start] goes on. *)
Lemma memberMonitor_after_init_witness :
  fst (run Mem.text Mem.dal Mem.codec Mem.clock "host" Mem.cfgA
         [TStart; TStart; TStart; TStart; TMemberHeartbeat; TMemberHeartbeat;
          TStart; TStart]
         (initSystem (Mem.world false Mem.emptyStore)))
    = [LGoDirectorMonitor; LGoDirectorHeartbeat; LGoMemberHeartbeat;
       LMemberStructureCreated; LSendInitFinished; LRecvInitFinished;
       LGoMemberMonitor] /\
  receivedBefore
    (fst (run Mem.text Mem.dal Mem.codec Mem.clock "host" Mem.cfgA
            [TStart; TStart; TStart; TStart; TMemberHeartbeat; TMemberHeartbeat;
             TStart; TStart]
            (initSystem (Mem.world false Mem.emptyStore))))
    6.
Proof.
  split; [reflexivity|].
  apply (proj1 (memberMonitor_after_init Mem.Err Mem.text Mem.Store Mem.dal Mem.codec
                  Mem.clock "host" Mem.cfgA
                  [TStart; TStart; TStart; TStart; TMemberHeartbeat; TMemberHeartbeat;
                   TStart; TStart]
                  (Mem.world false Mem.emptyStore))).
  reflexivity.
Defined.


(** C8 at two inputs: a tick as director and a tick as member. *)
Lemma directorHeartbeatTick_writes_witness :
  trace (snd (directorHeartbeatTick Mem.text Mem.dal Mem.codec Mem.clock Mem.cfgA
                (Mem.world true Mem.emptyStore)))
    = [EvDal (CallUpdateDirectorState "1000000000000;A" "" true) None] /\
  directorHeartbeatTick Mem.text Mem.dal Mem.codec Mem.clock Mem.cfgA
    (Mem.world false Mem.emptyStore)
    = (Ret None, Mem.world false Mem.emptyStore).
Proof.
  split.
  - exact (f_equal (fun p => trace (snd p))
             (proj2 (directorHeartbeatTick_writes Mem.Err Mem.text Mem.Store Mem.dal
                       Mem.codec Mem.clock Mem.cfgA (Mem.world true Mem.emptyStore))
                    eq_refl "1000000000000;A" eq_refl)).
  - apply (proj1 (directorHeartbeatTick_writes Mem.Err Mem.text Mem.Store Mem.dal
                    Mem.codec Mem.clock Mem.cfgA (Mem.world false Mem.emptyStore))).
    reflexivity.
Defined.



(** X3 at one input: an event is waiting, the node is not director, the
    event stays in the store. *)
Lemma memberMonitorStep_not_director_witness :
  memberMonitorStep Mem.text Mem.dal Mem.cfgA
    (Mem.world false
       (Mem.watchStore [(mkResponse "set" "/9volt/cluster/members/B" true, None)]))
  = (Ret Continue,
     mkWorld false
       (Mem.watchStore [(mkResponse "set" "/9volt/cluster/members/B" true, None)])
       0 [EvSleep 1000000000]).
Proof.
  apply (memberMonitorStep_not_director Mem.Err Mem.text Mem.Store Mem.dal Mem.cfgA
           (Mem.world false
              (Mem.watchStore
                 [(mkResponse "set" "/9volt/cluster/members/B" true, None)]))).
  reflexivity.
Defined.

(** X6 at two inputs: the watch is cancelled; the store is unavailable. *)
Lemma memberMonitorStep_watcher_error_witness :
  fst (memberMonitorStep Mem.text Mem.dal Mem.cfgA
         (Mem.world true (Mem.watchStore [])))
    = Ret Break /\
  fst (memberMonitorStep Mem.text Mem.dal Mem.cfgA
         (Mem.world true
            (Mem.watchStore [(mkResponse "" "" false, Some Mem.Unavailable)])))
    = Ret Continue.
Proof.
  split.
  - exact (f_equal fst
             (proj1 (memberMonitorStep_watcher_error Mem.Err Mem.text Mem.Store Mem.dal
                       Mem.cfgA (Mem.world true (Mem.watchStore []))
                       (mkResponse "" "" false) Mem.ContextCanceled
                       (Mem.watchStore []) eq_refl eq_refl)
                    eq_refl)).
  - refine (f_equal fst
              (proj2 (memberMonitorStep_watcher_error Mem.Err Mem.text Mem.Store Mem.dal
                        Mem.cfgA
                        (Mem.world true
                           (Mem.watchStore
                              [(mkResponse "" "" false, Some Mem.Unavailable)]))
                        (mkResponse "" "" false) Mem.Unavailable
                        (Mem.watchStore []) eq_refl eq_refl)
                     _)).
    vm_compute. discriminate.
Defined.

(** X7 at one input: a tick on an empty store. *)
Lemma memberHeartbeatTick_steady_witness :
  trace (snd (memberHeartbeatTick Mem.text Mem.dal Mem.codec Mem.clock "host" Mem.cfgA
                (Mem.world false Mem.emptyStore)))
    = [EvDal (CallSet "cluster/members/A/status"
                      "1000000000000;A;host;0.0.0.0:8080;N/A;N/A"
                      (Some (mkSetOptions false 0 "" true 1))) None;
       EvGo (GoRefresh "cluster/members/A" 5)].
Proof.
  exact (f_equal (fun p => trace (snd p))
           (memberHeartbeatTick_steady Mem.Err Mem.text Mem.Store Mem.dal Mem.codec
              Mem.clock "host" Mem.cfgA (Mem.world false Mem.emptyStore)
              "1000000000000;A;host;0.0.0.0:8080;N/A;N/A" eq_refl)).
Defined.

(** X8 at one input: the observed record carries a timestamp that the
    codec refuses. *)
Lemma updateState_previous_unserialisable_witness :
  fst (updateState Mem.text Mem.dal Mem.codec Mem.clock Mem.cfgA
         (Some (mkDirectorJSON "B" (-1))) UPDATE
         (Mem.world false (Mem.directorStore "-1;B")))
    = Panic "invalid memory address or nil pointer dereference".
Proof.
  exact (f_equal fst
           (updateState_previous_unserialisable Mem.Err Mem.text Mem.Store Mem.dal
              Mem.codec Mem.clock Mem.cfgA (Some (mkDirectorJSON "B" (-1)))
              (Mem.world false (Mem.directorStore "-1;B"))
              "1000000000000;A" "" Mem.YearOutOfRange eq_refl eq_refl)).
Defined.

(** X9 at one input: the store holds the record an operator wrote for A. *)
Lemma directorMonitorTick_adopt_witness :
  dalCalls
    (since (Mem.world false (Mem.directorStore "999000000000;A"))
       (snd (directorMonitorTick Mem.text Mem.dal Mem.codec Mem.clock Mem.cfgA
               (Mem.world false (Mem.directorStore "999000000000;A")))))
    = [CallGet DIRECTOR_KEY;
       CallUpdateDirectorState "1000000000000;A" "999000000000;A" false].
Proof.
  exact (proj1 (directorMonitorTick_adopt Mem.Err Mem.text Mem.Store Mem.dal Mem.codec
                  Mem.clock Mem.cfgA
                  (Mem.world false (Mem.directorStore "999000000000;A"))
                  {[ DIRECTOR_KEY := "999000000000;A" ]}
                  (Mem.directorStore "999000000000;A")
                  "999000000000;A" "999000000000;A" "1000000000000;A"
                  (mkDirectorJSON "A" 999000000000)
                  eq_refl eq_refl eq_refl eq_refl eq_refl eq_refl eq_refl eq_refl)).
Defined.

(** * The command line ([main])

    [runServer] and [runCfgUtil] call into packages that are not among the
    sources ([dal], [config], [cluster], [director], [manager],
    [overwatch], [cfgutil], [util]); what those calls return is an input
    here. The fields that [logrus] attaches to a line are left out, the
    level and the message are kept. *)

Module Main.

Section Commands.

Variable E : Type.
Variable Error_text : E -> string.

(** ** runServer *)

(** A component as [runServer] uses it: [Identify()] and what [Start()]
    returns. *)
Record Component := mkComponent {
  Identify : string;
  Start : option E
}.

Record ServerEnv := mkServerEnv {
  dalNew : option E;
  cfgLoad : option E;
  cfgValidateDirs : list string;
  clusterNew : option E;
  directorNew : option E;
  managerNew : option E;
  overwatchStart : option E;
  clusterC : Component;
  directorC : Component;
  managerC : Component;
  alerterC : Component;
  stateC : Component;
  eventQueueC : Component
}.

Inductive ServerEvent :=
| SInfo (msg : string)
| SDalNew (err : option E)
| SCfgLoad (err : option E)
| SValidateDirs (errorList : list string)
| SClusterNew (err : option E)
| SDirectorNew (err : option E)
| SManagerNew (err : option E)
| SOverwatchStart (err : option E)
| SStart (component : string) (err : option E)
| SFatal (msg : string)
| SGoApiRun.

Inductive ServerOutcome :=
| Exited
| Serving.

(** [for _, cmp := range components]: start each in turn; [false] when
    one did not start ([log.Fatal] ended the process). *)
Fixpoint startComponents (components : list Component) : list ServerEvent * bool :=
  match components with
  | [] => ([], true)
  | cmp :: rest =>
      match Start cmp with
      | Some e =>
          ([SInfo "Starting component"; SStart (Identify cmp) (Some e);
            SFatal "Unable to start component"], false)
      | None =>
          let '(evs, ok) := startComponents rest in
          (SInfo "Starting component" :: SStart (Identify cmp) None :: evs, ok)
      end
  end.

Definition components (env : ServerEnv) : list Component :=
  [clusterC env; directorC env; managerC env; alerterC env; stateC env;
   eventQueueC env].

Definition runServer (env : ServerEnv) : list ServerEvent * ServerOutcome :=
  let start := [SInfo "Starting 9volt server"; SDalNew (dalNew env)] in
  match dalNew env with
  | Some _ => (start ++ [SFatal "Unable to start initial etcd client"], Exited)
  | None =>
  let loaded := start ++ [SCfgLoad (cfgLoad env)] in
  match cfgLoad env with
  | Some _ => (loaded ++ [SFatal "Unable to load configuration from etcd"], Exited)
  | None =>
  let validated := loaded ++ [SValidateDirs (cfgValidateDirs env)] in
  match cfgValidateDirs env with
  | _ :: _ =>
      (validated ++ [SFatal "Unable to complete etcd layout validation"], Exited)
  | [] =>
  let withCluster := validated ++ [SClusterNew (clusterNew env)] in
  match clusterNew env with
  | Some _ => (withCluster ++ [SFatal "Unable to instantiate cluster engine"], Exited)
  | None =>
  let withDirector := withCluster ++ [SDirectorNew (directorNew env)] in
  match directorNew env with
  | Some _ => (withDirector ++ [SFatal "Unable to instantiate director"], Exited)
  | None =>
  let withManager := withDirector ++ [SManagerNew (managerNew env)] in
  match managerNew env with
  | Some _ => (withManager ++ [SFatal "Unable to instantiate manager"], Exited)
  | None =>
  let watched := withManager ++ [SOverwatchStart (overwatchStart env)] in
  match overwatchStart env with
  | Some _ => (watched ++ [SFatal "Unable to start overwatch component"], Exited)
  | None =>
  match startComponents (components env) with
  | (evs, false) => (watched ++ evs, Exited)
  | (evs, true) =>
      (watched ++ evs ++ [SGoApiRun; SInfo "9volt has started!"], Serving)
  end end end end end end end end.

(** The components whose [Start] was called, in order. *)
Definition startedOf (e : ServerEvent) : option string :=
  match e with
  | SStart name _ => Some name
  | _ => None
  end.

Definition started (evs : list ServerEvent) : list string := omap startedOf evs.

(** Whether an event reports a failure. *)
Definition failed (e : ServerEvent) : bool :=
  match e with
  | SDalNew (Some _) | SCfgLoad (Some _) | SClusterNew (Some _)
  | SDirectorNew (Some _) | SManagerNew (Some _) | SOverwatchStart (Some _)
  | SStart _ (Some _) => true
  | SValidateDirs (_ :: _) => true
  | _ => false
  end.

(** ** runCfgUtil *)

(** [dal.CfgUtilPushStats], the counters that are printed. *)
Record PushStats := mkPushStats {
  MonitorAdded : Z;
  AlerterAdded : Z;
  MonitorSkipped : Z;
  AlerterSkipped : Z;
  MonitorRemoved : Z;
  AlerterRemoved : Z
}.

Record CfgEnv := mkCfgEnv {
  dirArg : string;
  etcdMembers : string;
  replaceFlag : bool;
  nosyncFlag : bool;
  dryrunFlag : bool;
  cfgDalNew : option E;
  cfgutilNew : option E;
  cfgFetch : option E;
  cfgParse : option E;
  alerterConfigs : nat;
  monitorConfigs : nat;
  pushStats : PushStats;
  pushErrors : list string
}.

Inductive CfgEvent :=
| CInfo (msg : string)
| CError (msg : string)
| CFatal (msg : string)
| CPushFullConfigs.

(** [%v] of a slice of strings. *)
Fixpoint joinSpace (l : list string) : string :=
  match l with
  | [] => ""
  | [x] => x
  | x :: rest => x +:+ " " +:+ joinSpace rest
  end.

Definition showStrings (l : list string) : string := "[" +:+ joinSpace l +:+ "]".

Definition summary (env : CfgEnv) : list CfgEvent :=
  let stats := pushStats env in
  let pushedMessage :=
    "pushed " +:+ pretty (MonitorAdded stats) +:+ " monitor config(s) and "
    +:+ pretty (AlerterAdded stats) +:+ " alerter config(s)" in
  let skippedMessage :=
    "skipped replacing " +:+ pretty (MonitorSkipped stats)
    +:+ " monitor config(s) and " +:+ pretty (AlerterSkipped stats)
    +:+ " alerter config(s)" in
  let removedMessage :=
    "removed " +:+ pretty (MonitorRemoved stats) +:+ " monitor config(s) and "
    +:+ pretty (AlerterRemoved stats) +:+ " alerter config(s)" in
  let '(pushedMessage, skippedMessage, removedMessage) :=
    if dryrunFlag env then
      ("DRYRUN: Would have " +:+ pushedMessage,
       "DRYRUN: Would have " +:+ skippedMessage,
       "DRYRUN: Would have " +:+ removedMessage)
    else
      (":party: Successfully " +:+ pushedMessage,
       "Successfully " +:+ skippedMessage,
       "Successfully " +:+ removedMessage) in
  [CInfo pushedMessage]
  ++ (if negb (replaceFlag env) then [CInfo skippedMessage] else [])
  ++ (if negb (nosyncFlag env) then [CInfo removedMessage] else []).

Definition runCfgUtil (env : CfgEnv) : list CfgEvent :=
  match cfgDalNew env with
  | Some e => [CFatal ("Unable to create initial etcd client: " +:+ Error_text e)]
  | None =>
  match cfgutilNew env with
  | Some e => [CFatal (Error_text e)]
  | None =>
  let fetching :=
    [CInfo ("Fetching all 9volt configuration files in '" +:+ dirArg env +:+ "'")] in
  match cfgFetch env with
  | Some e =>
      fetching ++ [CFatal ("Unable to fetch config files from dir '" +:+ dirArg env
                           +:+ "': " +:+ Error_text e)]
  | None =>
  let parsing := fetching ++ [CInfo "Parsing 9volt config files"] in
  match cfgParse env with
  | Some e =>
      parsing ++ [CFatal ("Unable to complete config file parsing: " +:+ Error_text e)]
  | None =>
      parsing
      ++ [CInfo ("Found " +:+ pretty (Z.of_nat (alerterConfigs env))
                 +:+ " alerter configs and " +:+ pretty (Z.of_nat (monitorConfigs env))
                 +:+ " monitor configs");
          CInfo ("Pushing 9volt configs to etcd hosts: " +:+ etcdMembers env);
          CPushFullConfigs]
      ++ (match pushErrors env with
          | [] => []
          | _ :: _ =>
              [CError ("Encountered "
                       +:+ pretty (Z.of_nat (length (pushErrors env)))
                       +:+ " errors: " +:+ showStrings (pushErrors env))]
          end)
      ++ summary env
  end end end end.

(** What follows the push in a list of events. *)
Fixpoint afterPush (evs : list CfgEvent) : list CfgEvent :=
  match evs with
  | [] => []
  | CPushFullConfigs :: rest => rest
  | _ :: rest => afterPush rest
  end.

Definition infoText (e : CfgEvent) : option string :=
  match e with
  | CInfo msg => Some msg
  | _ => None
  end.

Definition isFatal (e : CfgEvent) : bool :=
  match e with
  | CFatal _ => true
  | _ => false
  end.

Definition isPush (e : CfgEvent) : bool :=
  match e with
  | CPushFullConfigs => true
  | _ => false
  end.

(** ** main *)

Inductive Command :=
| RanServer (r : list ServerEvent * ServerOutcome)
| RanCfgUtil (r : list CfgEvent)
| RanNothing.

Definition main (command : string) (senv : ServerEnv) (cenv : CfgEnv) : Command :=
  if String.eqb command "server" then RanServer (runServer senv)
  else if String.eqb command "cfg" then RanCfgUtil (runCfgUtil cenv)
  else RanNothing.

(** ** Properties of the commands *)

Definition sound (e : ServerEvent) : Prop := failed e = false.

Lemma startComponents_spec (cs : list Component) :
  started (fst (startComponents cs)) `prefix_of` map Identify cs /\
  ~ In SGoApiRun (fst (startComponents cs)) /\
  (snd (startComponents cs) = true ->
   started (fst (startComponents cs)) = map Identify cs /\
   Forall sound (fst (startComponents cs))) /\
  (snd (startComponents cs) = false ->
   exists pre e msg,
     fst (startComponents cs) = pre ++ [e; SFatal msg] /\
     failed e = true /\ Forall sound pre).
Proof.
  induction cs as [|c cs IH]; cbn.
  - split; [exists []; reflexivity|]. split; [intros []|].
    split; [intros _; split; [reflexivity|constructor]|discriminate].
  - destruct (Start c) as [e|] eqn:Hs; cbn.
    + split; [exists (map Identify cs); reflexivity|].
      split; [intros [H|[H|[H|[]]]]; discriminate|].
      split; [discriminate|]. intros _.
      exists [SInfo "Starting component"], (SStart (Identify c) (Some e)),
             "Unable to start component".
      split; [reflexivity|]. split; [reflexivity|].
      constructor; [reflexivity|constructor].
    + destruct (startComponents cs) as [evs ok]. cbn in *.
      destruct IH as (Hp & Hn & Ht & Hf).
      split; [apply prefix_cons, Hp|].
      split; [intros [H|[H|H]]; [discriminate|discriminate|exact (Hn H)]|].
      split.
      * intros Hok. destruct (Ht Hok) as [H1 H2]. split; [f_equal; exact H1|].
        constructor; [reflexivity|]. constructor; [reflexivity|exact H2].
      * intros Hok. destruct (Hf Hok) as (pre & e & msg & H1 & H2 & H3).
        exists (SInfo "Starting component" :: SStart (Identify c) None :: pre), e, msg.
        split; [rewrite H1; reflexivity|]. split; [exact H2|].
        constructor; [reflexivity|]. constructor; [reflexivity|exact H3].
Qed.

(** Split a list of events that ends in a failed call and a fatal line. *)
Ltac split_fatal l :=
  lazymatch l with
  | [?e; SFatal ?m] => constr:((@nil ServerEvent, e, m))
  | ?x :: ?r =>
      let t := split_fatal r in
      lazymatch t with
      | (?pre, ?e, ?m) => constr:((x :: pre, e, m))
      end
  end.

(** Close the goal for a stage of [runServer] that failed. *)
Ltac stage_failed :=
  cbn;
  split; [eexists; reflexivity|];
  split; [discriminate|];
  intros _;
  split;
  [ intros H; repeat (destruct H as [H|H]; [discriminate|]); destruct H
  | lazymatch goal with
    | |- exists pre e msg, ?l = _ /\ _ =>
        let t := split_fatal l in
        lazymatch t with
        | (?pre, ?e, ?m) => exists pre, e, m
        end
    end;
    split; [reflexivity|]; split; [reflexivity|repeat constructor] ].


Lemma prefix_append (a b : string) : String.prefix a (a +:+ b) = true.
Proof.
  induction a as [|c a IH].
  - destruct b; reflexivity.
  - change (String.prefix (String c a) (String c (a +:+ b)) = true).
    simpl. destruct (ascii_dec c c) as [_|Hne]; [exact IH|contradiction].
Qed.

(** X21. [runCfgUtil]. [PushFullConfigs] is called exactly when the etcd
    client, the directory, the fetch and the parse all succeeded;
    otherwise the run ends in one fatal line, its last. Errors of the
    push are not fatal. After the push the info lines are the summary:
    one line, plus one unless [--replace], plus one unless [--nosync];
    with [--dryrun] every one of them begins with "DRYRUN: Would have ",
    and without it none does. *)
Theorem runCfgUtil_summary (env : CfgEnv) :
  let evs := runCfgUtil env in
  let staged :=
    match cfgDalNew env, cfgutilNew env, cfgFetch env, cfgParse env with
    | None, None, None, None => true
    | _, _, _, _ => false
    end in
  existsb isPush evs = staged /\
  existsb isFatal evs = negb staged /\
  (staged = false -> exists pre msg, evs = pre ++ [CFatal msg]) /\
  (staged = true ->
   length (omap infoText (afterPush evs))
     = (1 + (if replaceFlag env then 0 else 1) + (if nosyncFlag env then 0 else 1))%nat /\
   Forall (fun msg => String.prefix "DRYRUN: Would have " msg = dryrunFlag env)
          (omap infoText (afterPush evs))).
Proof.
  cbv zeta. unfold runCfgUtil.
  destruct (cfgDalNew env) as [e1|]; cbn.
  { repeat split; try discriminate. intros _. exists []. eexists. reflexivity. }
  destruct (cfgutilNew env) as [e2|]; cbn.
  { repeat split; try discriminate. intros _. exists []. eexists. reflexivity. }
  destruct (cfgFetch env) as [e3|]; cbn.
  { repeat split; try discriminate. intros _. eexists [_]. eexists. reflexivity. }
  destruct (cfgParse env) as [e4|]; cbn.
  { repeat split; try discriminate. intros _. eexists [_; _]. eexists. reflexivity. }
  unfold summary.
  destruct (pushErrors env) as [|x xs]; destruct (dryrunFlag env);
    destruct (replaceFlag env); destruct (nosyncFlag env); cbn;
    (split; [reflexivity|]); (split; [reflexivity|]); (split; [discriminate|]);
    intros _; (split; [reflexivity|]);
    repeat (constructor; [first [apply prefix_append|reflexivity]|]);
    constructor.
Qed.

End Commands.

End Main.

(** * Further runs on the in-memory store *)

Arguments memberMonitorLoop {E} Error_text {St} dal cfg fuel _.
Arguments watch {E St} dal n s.

(** X11 at one run: B joins, B's status is written, A expires, then the
    watch is cancelled. *)
Lemma memberMonitorLoop_events_witness :
  distributeSends
    (since
       (Mem.world true
          (Mem.watchStore
             [(mkResponse "set" "/9volt/cluster/members/B" true, None);
              (mkResponse "set" "/9volt/cluster/members/B/status" false, None);
              (mkResponse "expire" "/9volt/cluster/members/A" true, None)]))
       (snd (memberMonitorLoop Mem.text Mem.dal Mem.cfgA 10
               (Mem.world true
                  (Mem.watchStore
                     [(mkResponse "set" "/9volt/cluster/members/B" true, None);
                      (mkResponse "set" "/9volt/cluster/members/B/status" false, None);
                      (mkResponse "expire" "/9volt/cluster/members/A" true, None)])))))
    = [true; true].
Proof.
  exact (proj2 (proj2
    (memberMonitorLoop_events Mem.Err Mem.text Mem.Store Mem.dal Mem.cfgA
       (Mem.world true
          (Mem.watchStore
             [(mkResponse "set" "/9volt/cluster/members/B" true, None);
              (mkResponse "set" "/9volt/cluster/members/B/status" false, None);
              (mkResponse "expire" "/9volt/cluster/members/A" true, None)]))
       [mkResponse "set" "/9volt/cluster/members/B" true;
        mkResponse "set" "/9volt/cluster/members/B/status" false;
        mkResponse "expire" "/9volt/cluster/members/A" true]
       (mkResponse "" "" false) Mem.ContextCanceled (Mem.watchStore []) 10%nat
       eq_refl eq_refl eq_refl (ltac:(cbn; lia))))).
Defined.

(** X12 at one run: three iterations as member, with a cancelled watch
    waiting. *)
Lemma memberMonitorLoop_not_director_witness :
  memberMonitorLoop Mem.text Mem.dal Mem.cfgA 3 (Mem.world false (Mem.watchStore []))
  = (Ret false,
     mkWorld false (Mem.watchStore []) 0
       [EvSleep 1000000000; EvSleep 1000000000; EvSleep 1000000000]).
Proof.
  exact (memberMonitorLoop_not_director Mem.Err Mem.text Mem.Store Mem.dal Mem.cfgA
           3%nat (Mem.world false (Mem.watchStore [])) eq_refl).
Defined.

(** X13 at two keys: the directory of member B, and a directory named
    config directly below the members directory. *)
Lemma memberMonitorStep_member_key_witness :
  distributeSends
    (since
       (Mem.world true
          (Mem.watchStore [(mkResponse "set" "/9volt/cluster/members/B" true, None)]))
       (snd (memberMonitorStep Mem.text Mem.dal Mem.cfgA
               (Mem.world true
                  (Mem.watchStore
                     [(mkResponse "set" "/9volt/cluster/members/B" true, None)])))))
    = [true] /\
  distributeSends
    (since
       (Mem.world true
          (Mem.watchStore
             [(mkResponse "set" "/9volt/cluster/members/config" true, None)]))
       (snd (memberMonitorStep Mem.text Mem.dal Mem.cfgA
               (Mem.world true
                  (Mem.watchStore
                     [(mkResponse "set" "/9volt/cluster/members/config" true,
                       None)])))))
    = [].
Proof.
  split.
  - exact (memberMonitorStep_member_key Mem.Err Mem.text Mem.Store Mem.dal Mem.cfgA
             (Mem.world true
                (Mem.watchStore
                   [(mkResponse "set" "/9volt/cluster/members/B" true, None)]))
             "/9volt/cluster/members" "B" (Mem.watchStore [])
             eq_refl (ltac:(discriminate)) eq_refl eq_refl).
  - exact (memberMonitorStep_member_key Mem.Err Mem.text Mem.Store Mem.dal Mem.cfgA
             (Mem.world true
                (Mem.watchStore
                   [(mkResponse "set" "/9volt/cluster/members/config" true, None)]))
             "/9volt/cluster/members" "config" (Mem.watchStore [])
             eq_refl (ltac:(discriminate)) eq_refl eq_refl).
Defined.

(** X14 at two inputs: a store that cannot be reached, and a director
    key that does not parse. *)
Lemma directorMonitorTick_observation_failure_witness :
  (exists msg,
     directorMonitorTick Mem.text Mem.dal Mem.codec Mem.clock Mem.cfgA
       (Mem.world true Mem.downStore)
     = (Ret None,
        mkWorld true Mem.downStore 0
          [EvDal (CallGet DIRECTOR_KEY) (Some Mem.Unavailable);
           EvEventQueue "error"
             (Identifier +:+ "-directorMonitor: Unable to fetch director state: "
              +:+ msg)])) /\
  (exists msg,
     directorMonitorTick Mem.text Mem.dal Mem.codec Mem.clock Mem.cfgA
       (Mem.world false (Mem.directorStore "garbage"))
     = (Ret None,
        mkWorld false (Mem.directorStore "garbage") 0
          [EvDal (CallGet DIRECTOR_KEY) None;
           EvEventQueue "error"
             (Identifier +:+ "-directorMonitor: Unable to fetch director state: "
              +:+ msg)])).
Proof.
  split.
  - apply (directorMonitorTick_observation_failure Mem.Err Mem.text Mem.Store Mem.dal
             Mem.codec Mem.clock Mem.cfgA (Mem.world true Mem.downStore));
      [reflexivity|]. left. vm_compute. discriminate.
  - apply (directorMonitorTick_observation_failure Mem.Err Mem.text Mem.Store Mem.dal
             Mem.codec Mem.clock Mem.cfgA
             (Mem.world false (Mem.directorStore "garbage")));
      [reflexivity|]. right. right. exists "garbage".
    split; [reflexivity|]. vm_compute. discriminate.
Defined.

(** X15 at one input: A is director and the director key has expired. *)
Lemma handleState_absent_while_director_witness :
  stateChanSends
    (trace (snd (handleState Mem.text Mem.dal Mem.codec Mem.clock Mem.cfgA None
                   (Mem.world true Mem.emptyStore))))
    = [true].
Proof.
  exact (f_equal (fun p => stateChanSends (trace (snd p)))
           (handleState_absent_while_director Mem.Err Mem.text Mem.Store Mem.dal
              Mem.codec Mem.clock Mem.cfgA (Mem.world true Mem.emptyStore)
              "1000000000000;A"
              (Mem.mkStore {[ DIRECTOR_KEY := Mem.mkNode "1000000000000;A" false 0 ]}
                           [] false)
              eq_refl eq_refl eq_refl)).
Defined.

(** X16 at two inputs: CREATE passed as the action, and 7 as the etcd
    action. *)
Lemma changeState_other_actions_witness :
  fst (changeState Mem.text Mem.dal Mem.codec Mem.clock Mem.cfgA CREATE None CREATE
         (Mem.world true Mem.emptyStore))
    = Ret None /\
  DirectorState
    (snd (changeState Mem.text Mem.dal Mem.codec Mem.clock Mem.cfgA CREATE None CREATE
            (Mem.world true Mem.emptyStore)))
    = false /\
  changeState Mem.text Mem.dal Mem.codec Mem.clock Mem.cfgA START None 7
    (Mem.world false Mem.emptyStore)
    = (Ret (Some (Errorf ("Unable to update director state: "
                          +:+ "Unrecognized etcdAction '7' (bug?)"))),
       Mem.world false Mem.emptyStore).
Proof.
  pose proof (changeState_other_actions Mem.Err Mem.text Mem.Store Mem.dal Mem.codec
                Mem.clock Mem.cfgA None (Mem.world true Mem.emptyStore)) as [H1 _].
  pose proof (changeState_other_actions Mem.Err Mem.text Mem.Store Mem.dal Mem.codec
                Mem.clock Mem.cfgA None (Mem.world false Mem.emptyStore)) as [_ H2].
  split; [|split].
  - rewrite (H1 CREATE CREATE) by discriminate. reflexivity.
  - rewrite (H1 CREATE CREATE) by discriminate. reflexivity.
  - apply (H2 7); discriminate.
Defined.

(** X17 at one input: the member directory is gone when the refresh
    runs. *)
Lemma refreshMemberDir_reports_witness :
  trace (snd (refreshMemberDir Mem.text Mem.dal Mem.codec Mem.cfgA
                "cluster/members/A" 99 (Mem.world false Mem.emptyStore)))
    = [EvDal (CallRefresh "cluster/members/A" 5) (Some Mem.KeyNotFound);
       EvEventQueue "error"
         ("cluster-runMemberHeartbeat: Unable to refresh member dir "
          +:+ "'cluster/members/A' (retrying in 1000000000ns): 100: Key not found");
       EvHealth false
         ("Cluster engine encountering etcd error(s) during refresh: "
          +:+ "100: Key not found");
       EvOverwatchChan
         (mkMessage (Errorf "Unable to refresh key in etcd: 100: Key not found")
                    "cluster.runMemberHeartbeat" ETCD_GENERIC_ERROR)].
Proof.
  exact (f_equal (fun p => trace (snd p))
           (refreshMemberDir_reports Mem.Err Mem.text Mem.Store Mem.dal Mem.codec
              Mem.cfgA "cluster/members/A" 99 (Mem.world false Mem.emptyStore))).
Defined.

(** X18 at one input: A starts on an empty store. *)
Lemma directorMonitor_cold_start_then_steady_witness :
  dalCalls
    (trace
       (snd (directorMonitorTick Mem.text Mem.dal Mem.codec Mem.clock Mem.cfgA
               (snd (directorMonitorTick Mem.text Mem.dal Mem.codec Mem.clock Mem.cfgA
                       (Mem.world false Mem.emptyStore))))))
    = [CallGet DIRECTOR_KEY; CallCreateDirectorState "1000000000000;A";
       CallGet DIRECTOR_KEY].
Proof.
  destruct (directorMonitor_cold_start_then_steady Mem.Err Mem.text Mem.Store Mem.dal
              Mem.codec Mem.clock Mem.cfgA (Mem.world false Mem.emptyStore)
              ∅ {[ DIRECTOR_KEY := "1000000000000;A" ]} (Some Mem.KeyNotFound)
              Mem.emptyStore
              (Mem.mkStore {[ DIRECTOR_KEY := Mem.mkNode "1000000000000;A" false 0 ]}
                           [] false)
              (Mem.mkStore {[ DIRECTOR_KEY := Mem.mkNode "1000000000000;A" false 0 ]}
                           [] false)
              "1000000000000;A" (mkDirectorJSON "A" 1000000000000))
    as [H1 H2]; [vm_compute; reflexivity ..|].
  rewrite H1. cbn [snd]. rewrite H2. reflexivity.
Defined.

(** X19 at one schedule, the one of the start-up witness with one more
    step of [Start]. *)
Lemma start_returns_after_launches_witness :
  [LGoDirectorMonitor; LGoDirectorHeartbeat; LGoMemberHeartbeat; LGoMemberMonitor]
    `sublist_of`
    take 7
      (fst (run Mem.text Mem.dal Mem.codec Mem.clock "host" Mem.cfgA
              [TStart; TStart; TStart; TMemberHeartbeat; TMemberHeartbeat;
               TStart; TStart; TStart]
              (initSystem (Mem.world false Mem.emptyStore)))).
Proof.
  exact (proj1 (start_returns_after_launches Mem.Err Mem.text Mem.Store Mem.dal
                  Mem.codec Mem.clock "host" Mem.cfgA
                  [TStart; TStart; TStart; TMemberHeartbeat; TMemberHeartbeat;
                   TStart; TStart; TStart]
                  (Mem.world false Mem.emptyStore) 7%nat eq_refl)).
Defined.


(** X21 at one input: a dry run with [--nosync] and two push errors. *)
Lemma runCfgUtil_summary_witness :
  omap Main.infoText
    (Main.afterPush
       (Main.runCfgUtil Mem.Err Mem.text
          (Main.mkCfgEnv Mem.Err "conf" "http://localhost:2379" false true true
             None None None None 1 2 (Main.mkPushStats 2 1 0 0 0 0) ["a"; "b"])))
    = ["DRYRUN: Would have pushed 2 monitor config(s) and 1 alerter config(s)";
       "DRYRUN: Would have skipped replacing 0 monitor config(s) and 0 alerter config(s)"]
  /\
  Forall (fun msg => String.prefix "DRYRUN: Would have " msg = true)
    (omap Main.infoText
       (Main.afterPush
          (Main.runCfgUtil Mem.Err Mem.text
             (Main.mkCfgEnv Mem.Err "conf" "http://localhost:2379" false true true
                None None None None 1 2 (Main.mkPushStats 2 1 0 0 0 0) ["a"; "b"])))).
Proof.
  split; [reflexivity|].
  pose proof (Main.runCfgUtil_summary Mem.Err Mem.text
          (Main.mkCfgEnv Mem.Err "conf" "http://localhost:2379" false true true
             None None None None 1 2 (Main.mkPushStats 2 1 0 0 0 0) ["a"; "b"]))
    as H.
  cbv zeta in H. destruct H as (_ & _ & _ & H).
  exact (proj2 (H eq_refl)).
Defined.
